(** * AI Room Segmentation HQ ([app_hq.py]): a model of the detection and
      canvas pipelines, and the properties of its specification.

    The program is a Streamlit script.  Its two workflows are modelled as
    computations in a small monad that threads the log of everything the
    script does to the outside world (remote calls, model inference, widgets)
    and in which a Python exception is an explicit outcome.

    Python values are modelled as the code meets them:
    - [str] is a sequence of Unicode code points;
    - [int] is [Z];
    - [float] is IEEE 754 binary64, through the executable specification of
      the Standard Library ([SpecFloat], precision 53, maximal exponent 1024),
      so that every number below is the number CPython computes;
    - the result of [json.loads] is a tree of [None], [bool], [int], [float],
      [str], [list] and [dict].

    Library functions whose text is not part of the script ([json.loads], the
    remote vision-language client, the segmentation model, [str(e)]) are
    parameters of the model. *)

From Stdlib Require Import ZArith NArith List Bool Lia String Ascii SpecFloat.
Import ListNotations.

Local Open Scope Z_scope.

(* ================================================================== *)
(** * Python strings *)

Module PyStr.

(** A Python [str]: a sequence of code points. *)
Definition pystr := list N.

(** Decoder for the UTF-8 bytes of a literal of this file. *)
Fixpoint utf8_decode (bs : list N) : pystr :=
  match bs with
  | [] => []
  | b :: r =>
      if (b <? 128)%N then b :: utf8_decode r
      else if (b <? 224)%N then
        match r with
        | b1 :: r1 => ((b - 192) * 64 + (b1 - 128))%N :: utf8_decode r1
        | _ => []
        end
      else if (b <? 240)%N then
        match r with
        | b1 :: b2 :: r2 =>
            ((b - 224) * 4096 + (b1 - 128) * 64 + (b2 - 128))%N :: utf8_decode r2
        | _ => []
        end
      else
        match r with
        | b1 :: b2 :: b3 :: r3 =>
            ((b - 240) * 262144 + (b1 - 128) * 4096 + (b2 - 128) * 64 + (b3 - 128))%N
              :: utf8_decode r3
        | _ => []
        end
  end.

Fixpoint bytes_of_string (s : string) : list N :=
  match s with
  | EmptyString => []
  | String a r => N_of_ascii a :: bytes_of_string r
  end.

(** A string literal of the script. *)
Definition lit (s : string) : pystr := utf8_decode (bytes_of_string s).

Definition str_eqb (a b : pystr) : bool :=
  if list_eq_dec N.eq_dec a b then true else false.

(** Truth value of a [str]: non-empty. *)
Definition str_truthy (s : pystr) : bool :=
  match s with [] => false | _ => true end.

Definition lbracket : N := 91.
Definition rbracket : N := 93.

End PyStr.
Export PyStr.

(* ================================================================== *)
(** * Python exceptions and outcomes *)

(** The exception classes the script can meet.  [LibraryError] stands for
    whatever a library call raises (network, authentication, quota, a blocked
    response, an inference failure); all are subclasses of [Exception]. *)
Inductive exn : Type :=
| TypeError
| ValueError
| KeyError (key : pystr)
| IndexError
| OverflowError
| ZeroDivisionError
| JSONDecodeError (pos : N)
| LibraryError (tag : N).

(** The outcome of evaluating a Python expression. *)
Inductive outcome (A : Type) : Type :=
| Return (a : A)
| Raise (e : exn).
Arguments Return {A} a.
Arguments Raise {A} e.

Definition obind {A B} (o : outcome A) (k : A -> outcome B) : outcome B :=
  match o with
  | Return a => k a
  | Raise e => Raise e
  end.

Declare Scope outcome_scope.
Delimit Scope outcome_scope with out.
Notation "x <- c ;; k" := (obind c (fun x => k))
  (at level 61, c at next level, right associativity) : outcome_scope.
Notation "' p <- c ;; k" := (obind c (fun x => let p := x in k))
  (at level 61, p pattern, c at next level, right associativity) : outcome_scope.

(* ================================================================== *)
(** * Python floats and the arithmetic the script uses *)

Module PyFloat.

Definition prec : Z := 53.
Definition emax : Z := 1024.

Definition float := spec_float.

Definition fmul : float -> float -> float := SFmul prec emax.
Definition fdiv : float -> float -> float := SFdiv prec emax.
Definition fadd : float -> float -> float := SFadd prec emax.
Definition fleb : float -> float -> bool := SFleb.

(** [float(n)] for an [int]: the nearest double, ties to even;
    [OverflowError] beyond the largest one. *)
Definition float_of_int (n : Z) : outcome float :=
  match binary_normalize prec emax n 0 false with
  | S754_infinity _ => Raise OverflowError
  | f => Return f
  end.

(** [a / b] on two [int]s: the correctly rounded quotient of the integers
    themselves (not of their conversions), as CPython's true division. *)
Definition int_true_div (a b : Z) : outcome float :=
  match b with
  | 0 => Raise ZeroDivisionError
  | _ =>
      match a with
      | 0 => Return (S754_zero (b <? 0))
      | _ =>
          let '(mz, ez, lz) := SFdiv_core_binary prec emax (Z.abs a) 0 (Z.abs b) 0 in
          match binary_round_aux prec emax (xorb (a <? 0) (b <? 0)) mz ez lz with
          | S754_infinity _ => Raise OverflowError
          | f => Return f
          end
      end
  end.

(** [int(f)]: truncation toward zero. *)
Definition int_of_float (f : float) : outcome Z :=
  match f with
  | S754_zero _ => Return 0
  | S754_finite s m e => Return (cond_Zopp s (Z.shiftl (Zpos m) e))
  | S754_infinity _ => Raise OverflowError
  | S754_nan => Raise ValueError
  end.

(** [f * n] with [f] a float and [n] an [int]. *)
Definition float_mul_int (f : float) (n : Z) : outcome float :=
  (nf <- float_of_int n ;; Return (fmul f nf))%out.

(** The literal [1.0]. *)
Definition one : float := S754_finite false 4503599627370496 (-52).

End PyFloat.
Export PyFloat.

(* ================================================================== *)
(** * Values produced by [json.loads] *)

#[local] Set Warnings "-register-all".
Inductive json : Type :=
| JNull
| JBool (b : bool)
| JInt (n : Z)
| JFloat (f : float)
| JStr (s : pystr)
| JList (l : list json)
| JObj (kv : list (pystr * json)).

Module PyVal.

(** Truth value, as [if v:] and [a and b] test it. *)
Definition truthy (v : json) : bool :=
  match v with
  | JNull => false
  | JBool b => b
  | JInt n => negb (n =? 0)
  | JFloat f => match f with S754_zero _ => false | _ => true end
  | JStr s => str_truthy s
  | JList l => match l with [] => false | _ => true end
  | JObj kv => match kv with [] => false | _ => true end
  end.

(** [iter(v)]: what a [for] loop or an unpacking assignment walks over. *)
Definition py_iter (v : json) : outcome (list json) :=
  match v with
  | JList l => Return l
  | JStr s => Return (map (fun c => JStr [c]) s)
  | JObj kv => Return (map (fun p => JStr (fst p)) kv)
  | _ => Raise TypeError
  end.

Fixpoint lookup (k : pystr) (kv : list (pystr * json)) : option json :=
  match kv with
  | [] => None
  | (k', v) :: r => if str_eqb k k' then Some v else lookup k r
  end.

(** [v[k]] with [k] a [str]. *)
Definition getitem (v : json) (k : pystr) : outcome json :=
  match v with
  | JObj kv => match lookup k kv with Some x => Return x | None => Raise (KeyError k) end
  | _ => Raise TypeError
  end.

(** [v.get(k, default)], used once the subscript [v[...]] by a [str] has
    succeeded, hence on a [dict]. *)
Definition get_default (v : json) (k : pystr) (d : json) : outcome json :=
  match v with
  | JObj kv => match lookup k kv with Some x => Return x | None => Return d end
  | _ => Raise TypeError
  end.

(** [v[-1]]. *)
Definition getitem_last (v : json) : outcome json :=
  match v with
  | JList l => match rev l with x :: _ => Return x | [] => Raise IndexError end
  | JStr s => match rev s with c :: _ => Return (JStr [c]) | [] => Raise IndexError end
  | JObj _ => Raise (KeyError (lit "-1"))
  | _ => Raise TypeError
  end.

(** [a, b, c, d = v]. *)
Definition unpack4 (v : json) : outcome (json * json * json * json) :=
  (l <- py_iter v ;;
   match l with
   | [a; b; c; d] => Return (a, b, c, d)
   | _ => Raise ValueError
   end)%out.

Definition Z_of_bool (b : bool) : Z := if b then 1 else 0.

(** [v / k] with [k] an [int] literal. *)
Definition div_int (v : json) (k : Z) : outcome float :=
  match v with
  | JInt n => int_true_div n k
  | JBool b => int_true_div (Z_of_bool b) k
  | JFloat f =>
      (kf <- float_of_int k ;;
       match kf with
       | S754_zero _ => Raise ZeroDivisionError
       | _ => Return (fdiv f kf)
       end)%out
  | _ => Raise TypeError
  end.

(** [v * f] with [f] a [float]. *)
Definition mul_float (v : json) (f : float) : outcome float :=
  match v with
  | JInt n => (nf <- float_of_int n ;; Return (fmul nf f))%out
  | JBool b => (nf <- float_of_int (Z_of_bool b) ;; Return (fmul nf f))%out
  | JFloat g => Return (fmul g f)
  | _ => Raise TypeError
  end.

(** [a + b]. *)
Definition py_add (a b : json) : outcome json :=
  match a, b with
  | JStr s, JStr t => Return (JStr (s ++ t))
  | JList s, JList t => Return (JList (s ++ t))
  | (JInt _ | JBool _ | JFloat _), (JInt _ | JBool _ | JFloat _) =>
      let as_int v := match v with JInt n => Some n | JBool b => Some (Z_of_bool b) | _ => None end in
      let as_float v := match v with
                        | JFloat f => Return f
                        | JInt n => float_of_int n
                        | JBool b => float_of_int (Z_of_bool b)
                        | _ => Raise TypeError
                        end in
      match as_int a, as_int b with
      | Some x, Some y => Return (JInt (x + y))
      | _, _ => (x <- as_float a ;; y <- as_float b ;; Return (JFloat (fadd x y)))%out
      end
  | _, _ => Raise TypeError
  end.

End PyVal.
Export PyVal.

(* ================================================================== *)
(** * The regular expression of the detection adapter *)

Module Regex.

(** The two constructs of the pattern [\[.*\]] compiled with [re.DOTALL]:
    an escaped literal character, and [.*], which under [DOTALL] accepts
    every character, line breaks included, and is greedy. *)
Inductive atom : Type :=
| Lit (c : N)
| AnyStar.

Definition pattern := list atom.

(** Backtracking match of a pattern at the head of the text; the result is
    the length of the match.  [.*] first takes as many characters as it can
    and gives them back one at a time. *)
Fixpoint match_here (p : pattern) : pystr -> option nat :=
  match p with
  | [] => fun _ => Some O
  | Lit c :: p' =>
      fun s =>
        match s with
        | x :: s' => if (x =? c)%N then option_map S (match_here p' s') else None
        | [] => None
        end
  | AnyStar :: p' =>
      fix star (s : pystr) : option nat :=
        match s with
        | [] => match_here p' []
        | _ :: s' =>
            match star s' with
            | Some n => Some (S n)
            | None => match_here p' s
            end
        end
  end.

(** [re.search(p, s)]: the match at the leftmost position that has one;
    the result is [match.group(0)]. *)
Fixpoint search (p : pattern) (s : pystr) : option pystr :=
  match match_here p s with
  | Some n => Some (firstn n s)
  | None =>
      match s with
      | [] => None
      | _ :: s' => search p s'
      end
  end.

Definition bracket_pattern : pattern := [Lit lbracket; AnyStar; Lit rbracket].

End Regex.

(* ================================================================== *)
(** * The outside world *)

(** A PIL image: its size and its raster, which the script never inspects. *)
Record image : Type := { size : Z * Z; raster : N }.

(** A pixel box [[xmin, ymin, xmax, ymax]]: a Python list of floats. *)
Definition box := list float.

(** One result object of the segmentation model: its rendering and its truth
    value, the two things the script asks of it. *)
Record sam_result : Type := { plot : N; nonempty : bool }.

Inductive picture : Type :=
| Original (img : image)
| Rendered (overlay : N).

(** Everything the script does to the outside world, in order. *)
Inductive event : Type :=
| Configure (api_key : pystr)
| GenerateContent (model_name prompt : pystr) (img : image)
| SamPredict (img : image) (bboxes : list box)
| StWrite (text : pystr)
| StError (text : pystr)
| StSuccess (text : pystr)
| StImage (content : picture) (caption : pystr).

(** The library functions the script calls.  The remote service and the
    segmentation model answer as a function of the whole history, so that a
    second call may be answered differently from the first. *)
Record libs : Type := {
  json_loads : pystr -> outcome json;
  generate_text : list event -> outcome pystr;
  sam_model : list event -> outcome (list sam_result);
  exn_text : exn -> pystr;
  prompt : pystr
}.

(** Computations of the script: the log is threaded, an exception keeps it. *)
Definition M (A : Type) : Type := list event -> outcome A * list event.

Definition ret {A} (a : A) : M A := fun log => (Return a, log).

Definition bind {A B} (c : M A) (k : A -> M B) : M B :=
  fun log =>
    match c log with
    | (Return a, log') => k a log'
    | (Raise e, log') => (Raise e, log')
    end.

Definition lift {A} (o : outcome A) : M A := fun log => (o, log).

Definition emit (ev : event) : M unit := fun log => (Return tt, log ++ [ev]).

(** A call answered by the world: the request is logged, the answer depends
    on the log. *)
Definition call {A} (ev : event) (answer : list event -> outcome A) : M A :=
  fun log => (answer (log ++ [ev]), log ++ [ev]).

(** [try: body / except Exception as e: handler(e)]. *)
Definition try_except {A} (body : M A) (handler : exn -> M A) : M A :=
  fun log =>
    match body log with
    | (Return a, log') => (Return a, log')
    | (Raise e, log') => handler e log'
    end.

Declare Scope script_scope.
Delimit Scope script_scope with script.
Notation "x <- c ;; k" := (bind c (fun x => k))
  (at level 61, c at next level, right associativity) : script_scope.
Notation "' p <- c ;; k" := (bind c (fun x => let p := x in k))
  (at level 61, p pattern, c at next level, right associativity) : script_scope.
Notation "c ;; k" := (bind c (fun _ => k))
  (at level 61, right associativity) : script_scope.

(* ================================================================== *)
(** * The script *)

Module App.

Import Regex.
Local Open Scope script_scope.

Section Script.

Variable L : libs.

(** The module-level handle [sam_model], applied to an image and boxes. *)
Definition run_sam (img : image) (bboxes : list box) : M (list sam_result) :=
  call (SamPredict img bboxes) (sam_model L).

(** [model = genai.GenerativeModel(model_name)],
    [response = model.generate_content([prompt, image])] and
    [response.text], whichever of them raises. *)
Definition generate_content (model_name : pystr) (img : image) : M pystr :=
  call (GenerateContent model_name (prompt L) img) (generate_text L).

(** [v / 1000 * dim] *)
Definition scale_component (v : json) (dim : Z) : outcome float :=
  (q <- div_int v 1000 ;; float_mul_int q dim)%out.

(** The first two statements of the loop body: [item["box_2d"]] is unpacked
    and the list [box] is built, its four entries evaluated in order. *)
Definition pixel_box (width height : Z) (item : json) : outcome box :=
  (box_2d <- getitem item (lit "box_2d") ;;
   '(ymin, xmin, ymax, xmax) <- unpack4 box_2d ;;
   x0 <- scale_component xmin width ;;
   y0 <- scale_component ymin height ;;
   x1 <- scale_component xmax width ;;
   y1 <- scale_component ymax height ;;
   Return [x0; y0; x1; y1])%out.

(** The body of the loop over [json_data], for one [item]: the box, then
    [item.get("label", "Object")]. *)
Definition convert_item (width height : Z) (item : json) : outcome (box * json) :=
  (b <- pixel_box width height item ;;
   label <- get_default item (lit "label") (JStr (lit "Object")) ;;
   Return (b, label))%out.

(** The loop, with the two lists it appends to. *)
Fixpoint collect (width height : Z) (items : list json)
         (bboxes : list box) (labels : list json) : outcome (list box * list json) :=
  match items with
  | [] => Return (bboxes, labels)
  | item :: rest =>
      ('(b, label) <- convert_item width height item ;;
       collect width height rest (bboxes ++ [b]) (labels ++ [label]))%out
  end.

Definition msg_no_json : pystr := lit "JSONが見つかりませんでした。応答: ".
Definition msg_ellipsis : pystr := lit "...".
Definition msg_none_detected : pystr := lit "検出対象なし".
Definition msg_success (model_name : pystr) : pystr :=
  lit "成功 (Model: " ++ model_name ++ lit ")".

(** [results[0]] *)
Definition first_result (results : list sam_result) : outcome sam_result :=
  match results with
  | r :: _ => Return r
  | [] => Raise IndexError
  end.

(** [match = re.search(r'\[.*\]', text_resp, re.DOTALL)] and
    [json.loads(match.group(0))]; [None] when there is no match. *)
Definition extract_json (text_resp : pystr) : outcome (option json) :=
  match search bracket_pattern text_resp with
  | None => Return None
  | Some span => (json_data <- json_loads L span ;; Return (Some json_data))%out
  end.

(** The statements under [try:]. *)
Definition detect (img : image) (model_name : pystr) (width height : Z)
  : M (option sam_result * pystr) :=
  text_resp <- generate_content model_name img ;;
  parsed <- lift (extract_json text_resp) ;;
  match parsed with
  | None => ret (None, msg_no_json ++ firstn 100 text_resp ++ msg_ellipsis)
  | Some json_data =>
      items <- lift (py_iter json_data) ;;
      '(bboxes, labels) <- lift (collect width height items [] []) ;;
      match bboxes with
      | _ :: _ =>
          results <- run_sam img bboxes ;;
          r <- lift (first_result results) ;;
          ret (Some r, msg_success model_name)
      | [] => ret (None, msg_none_detected)
      end
  end.

Definition process_gemini_auto (img : image) (api_key model_name : pystr)
  : M (option sam_result * pystr) :=
  emit (Configure api_key) ;;
  let '(width, height) := size img in
  try_except
    (detect img model_name width height)
    (fun e => ret (None, exn_text L e)).

Definition msg_intro : pystr := lit "選択されたモデルで解析します。".
Definition msg_validation : pystr := lit "APIキーとモデルを選択してください".
Definition msg_error_prefix : pystr := lit "エラー: ".

(** The block [with tab1:]; [clicked] is the value of [st.button]. *)
Definition auto_tab (img : image) (api_key selected_gemini_model : pystr)
           (clicked : bool) : M unit :=
  emit (StWrite msg_intro) ;;
  if clicked then
    if negb (str_truthy api_key) || negb (str_truthy selected_gemini_model) then
      emit (StError msg_validation)
    else
      '(result, info) <- process_gemini_auto img api_key selected_gemini_model ;;
      match result with
      | Some r =>
          if nonempty r then
            emit (StImage (Original img) (lit "元画像")) ;;
            emit (StImage (Rendered (plot r)) (lit "解析結果")) ;;
            emit (StSuccess info)
          else emit (StError (msg_error_prefix ++ info))
      | None => emit (StError (msg_error_prefix ++ info))
      end
  else ret tt.

Definition canvas_width : Z := 700.

(** The display size of the canvas: [scale], then [d_w, d_h]. *)
Definition display_size (width height : Z) : outcome (Z * Z) :=
  (scale <- (if width >? canvas_width then int_true_div canvas_width width
             else Return one) ;;
   dwf <- mul_float (JInt width) scale ;;
   d_w <- int_of_float dwf ;;
   dhf <- mul_float (JInt height) scale ;;
   d_h <- int_of_float dhf ;;
   Return (d_w, d_h))%out.

(** The pixel box of one canvas object. *)
Definition canvas_box (width height d_w d_h : Z) (obj : json) : outcome box :=
  (scale_x <- int_true_div width d_w ;;
   scale_y <- int_true_div height d_h ;;
   left <- getitem obj (lit "left") ;;
   x0 <- mul_float left scale_x ;;
   top <- getitem obj (lit "top") ;;
   y0 <- mul_float top scale_y ;;
   left' <- getitem obj (lit "left") ;;
   w <- getitem obj (lit "width") ;;
   right <- py_add left' w ;;
   x1 <- mul_float right scale_x ;;
   top' <- getitem obj (lit "top") ;;
   h <- getitem obj (lit "height") ;;
   bottom <- py_add top' h ;;
   y1 <- mul_float bottom scale_y ;;
   Return [x0; y0; x1; y1])%out.

(** [canvas.json_data and canvas.json_data["objects"]], then
    [canvas.json_data["objects"][-1]]: the object to segment, if any. *)
Definition drawn_object (json_data : json) : outcome (option json) :=
  if truthy json_data then
    (objects <- getitem json_data (lit "objects") ;;
     if truthy objects then
       (objects' <- getitem json_data (lit "objects") ;;
        obj <- getitem_last objects' ;;
        Return (Some obj))
     else Return None)%out
  else Return None.

Definition msg_manual : pystr := lit "手動モード (API不要)".
Definition caption_cutout : pystr := lit "切り抜き結果".

(** The block [with tab2:]; [json_data] is what the canvas component
    returns as [canvas.json_data]. *)
Definition manual_tab (img : image) (json_data : json) : M unit :=
  emit (StWrite msg_manual) ;;
  let '(width, height) := size img in
  '(d_w, d_h) <- lift (display_size width height) ;;
  drawn <- lift (drawn_object json_data) ;;
  match drawn with
  | Some obj =>
      b <- lift (canvas_box width height d_w d_h obj) ;;
      res <- run_sam img [b] ;;
      r <- lift (first_result res) ;;
      emit (StImage (Rendered (plot r)) caption_cutout)
  | None => ret tt
  end.

(** [main], given what the widgets return in this run of the script. *)
Definition main (uploaded : option image) (api_key selected_gemini_model : pystr)
           (clicked : bool) (json_data : json) : M unit :=
  match uploaded with
  | Some img =>
      auto_tab img api_key selected_gemini_model clicked ;;
      manual_tab img json_data
  | None => ret tt
  end.

End Script.

End App.

Import Regex App.

(* ================================================================== *)
(** * Definitions used in the statements and proofs *)

Ltac dlia := Z.div_mod_to_equations; lia.

Definition rne (a k : Z) : Z :=
  let q := a / 2 ^ k in
  let r := a mod 2 ^ k in
  match 2 * r ?= 2 ^ k with
  | Lt => q
  | Gt => q + 1
  | Eq => if Z.even q then q else q + 1
  end.

(** The state of the shifter after [k] steps on [a]. *)
Definition shifted (a k : Z) (mrs : shr_record) : Prop :=
  exists low,
    0 <= low /\ (low < 2 ^ k / 2 \/ (low = 0 /\ k = 0)) /\
    a = shr_m mrs * 2 ^ k + (if shr_r mrs then 2 ^ k / 2 else 0) + low /\
    (shr_s mrs = true <-> low <> 0) /\
    (k = 0 -> shr_r mrs = false) /\ 0 <= shr_m mrs.

Definition two52 : Z := 4503599627370496.
Definition two53 : Z := 9007199254740992.

(** The float with mantissa [q] (at most [2^53]) and exponent [E]. *)
Definition pack (sx : bool) (q E : Z) : float :=
  match q with
  | Zpos m =>
      if q <? two53 then
        if E <=? emax - prec then S754_finite sx m E else S754_infinity sx
      else
        if E + 1 <=? emax - prec then S754_finite sx (Z.to_pos two52) (E + 1)
        else S754_infinity sx
  | _ => S754_zero sx
  end.

(** Non-negative results of a rounding: zero, a positive finite number, or
    positive infinity. *)
Definition nonneg_shape (f : float) : Prop :=
  match f with
  | S754_zero false | S754_finite false _ _ | S754_infinity false => True
  | _ => False
  end.

(** Order of two quotients [a / 1000]: both are zero or normal numbers of
    exponent at least [-62], compared at that common exponent. *)
Definition frac_le (fa fb : float) : Prop :=
  match fa, fb with
  | S754_zero false, S754_zero false => True
  | S754_zero false, S754_finite false mb _ => 53 <= Zpos (digits2_pos mb)
  | S754_finite false ma ea, S754_finite false mb eb =>
      53 <= Zpos (digits2_pos ma) /\ 53 <= Zpos (digits2_pos mb) /\
      -62 <= ea /\ -62 <= eb /\
      Zpos ma * 2 ^ (ea + 62) <= Zpos mb * 2 ^ (eb + 62)
  | _, _ => False
  end.

Definition frac_leb (fa fb : float) : bool :=
  match fa, fb with
  | S754_zero false, S754_zero false => true
  | S754_zero false, S754_finite false mb _ => 53 <=? Zpos (digits2_pos mb)
  | S754_finite false ma ea, S754_finite false mb eb =>
      (53 <=? Zpos (digits2_pos ma)) && (53 <=? Zpos (digits2_pos mb)) &&
      (-62 <=? ea) && (-62 <=? eb) &&
      (Zpos ma * 2 ^ (ea + 62) <=? Zpos mb * 2 ^ (eb + 62))
  | _, _ => false
  end.

(** The check that the quotients [a / 1000] and [(a + 1) / 1000] are in order. *)
Definition unit_frac_ok (a : Z) : bool :=
  match int_true_div a 1000, int_true_div (a + 1) 1000 with
  | Return fa, Return fb => frac_leb fa fa && frac_leb fa fb && frac_leb fb fb
  | _, _ => false
  end.

Definition star_rb : pystr -> option nat :=
  fix star (s : pystr) : option nat :=
    match s with
    | [] => match_here [Lit rbracket] []
    | _ :: s' =>
        match star s' with
        | Some n => Some (S n)
        | None => match_here [Lit rbracket] s
        end
    end.

Definition has_span (text : pystr) : Prop :=
  exists pre mid post, text = pre ++ lbracket :: mid ++ rbracket :: post.

Definition is_generate (ev : event) : bool :=
  match ev with GenerateContent _ _ _ => true | _ => false end.

(** Number of calls to the remote service recorded in a log. *)
Definition remote_calls (log : list event) : nat :=
  List.length (filter is_generate log).

(** The log once the remote service has been asked. *)
Definition asked (L : libs) (img : image) (api_key model_name : pystr)
           (log : list event) : list event :=
  (log ++ [Configure api_key]) ++ [GenerateContent model_name (prompt L) img].

(** The boxes and labels of a parsed response. *)
Definition boxes_of (img : image) (json_data : json) : outcome (list box * list json) :=
  (items <- py_iter json_data ;;
   collect (fst (size img)) (snd (size img)) items [] [])%out.

(** A [json.loads] that knows one text. *)
Definition loads_only (text : pystr) (v : json) : pystr -> outcome json :=
  fun s => if str_eqb s text then Return v else Raise (JSONDecodeError 0).

(** A world whose remote service always answers [reply] and whose
    [json.loads] knows the text [known]. *)
Definition sample_libs (reply known : pystr) (v : json) : libs :=
  {| json_loads := loads_only known v;
     generate_text := fun _ => Return reply;
     sam_model := fun _ => Return [{| plot := 1; nonempty := true |}];
     exn_text := fun e =>
       match e with
       | KeyError k => [39%N] ++ k ++ [39%N]
       | JSONDecodeError _ => lit "Extra data"
       | _ => lit "error"
       end;
     prompt := lit "detect ceiling, wall, floor" |}.

Definition sample_image (w h : Z) : image := {| size := (w, h); raster := 0 |}.

(** The response of the scenario: prose, a fenced block, an empty array. *)
Definition reply_empty : pystr :=
  lit "Sure! Here is the result: ```json" ++ [10%N] ++ lit "[]" ++ [10%N] ++ lit "```".

(** The error conditions of the automatic path; [log1] is the log once the
    remote service has been asked. *)
Inductive auto_error (L : libs) (img : image) (log1 : list event) : exn -> Prop :=
| remote_call_failed e :
    generate_text L log1 = Raise e -> auto_error L img log1 e
| malformed_json text span e :
    generate_text L log1 = Return text ->
    search bracket_pattern text = Some span ->
    json_loads L span = Raise e ->
    auto_error L img log1 e
| missing_box_key text json_data good kv rest done :
    generate_text L log1 = Return text ->
    extract_json L text = Return (Some json_data) ->
    py_iter json_data = Return (good ++ JObj kv :: rest) ->
    collect (fst (size img)) (snd (size img)) good [] [] = Return done ->
    lookup (lit "box_2d") kv = None ->
    auto_error L img log1 (KeyError (lit "box_2d")).

(** A world whose remote call fails. *)
Definition offline_libs : libs :=
  {| json_loads := loads_only [] JNull;
     generate_text := fun _ => Raise (LibraryError 503);
     sam_model := fun _ => Return [];
     exn_text := fun _ => lit "503 Service Unavailable";
     prompt := lit "detect ceiling, wall, floor" |}.

(** A world whose remote service answers with prose that holds no JSON:
    [json.loads] rejects every text it is given. *)
Definition prose_libs (reply : pystr) : libs :=
  {| json_loads := fun _ => Raise (JSONDecodeError 1);
     generate_text := fun _ => Return reply;
     sam_model := fun _ => Return [];
     exn_text := fun e =>
       match e with
       | JSONDecodeError _ => lit "Expecting value: line 1 column 2 (char 1)"
       | _ => lit "error"
       end;
     prompt := lit "detect ceiling, wall, floor" |}.

Definition dquote : pystr := [34%N].

(** The text [[{"label":"Floor"}]] and its value. *)
Definition reply_no_box : pystr :=
  lit "[{" ++ dquote ++ lit "label" ++ dquote ++ lit ":" ++ dquote ++ lit "Floor"
      ++ dquote ++ lit "}]".
Definition value_no_box : json := JList [JObj [(lit "label", JStr (lit "Floor"))]].

(** A rectangle as the canvas component reports it. *)
Definition rect (left top width height : Z) : json :=
  JObj [(lit "type", JStr (lit "rect")); (lit "left", JInt left); (lit "top", JInt top);
        (lit "width", JInt width); (lit "height", JInt height)].

(** The canvas state: the drawn objects, under the key [objects]. *)
Definition canvas_state (objects : list json) : json :=
  JObj [(lit "version", JStr (lit "4.4.0")); (lit "objects", JList objects)].

(** [v / s] with [s] a [float]. *)
Definition div_float (v : json) (s : float) : outcome float :=
  let by_s f := match s with
                | S754_zero _ => Raise ZeroDivisionError
                | _ => Return (fdiv f s)
                end in
  match v with
  | JInt n => (nf <- float_of_int n ;; by_s nf)%out
  | JBool b => (nf <- float_of_int (Z_of_bool b) ;; by_s nf)%out
  | JFloat g => by_s g
  | _ => Raise TypeError
  end.

(** The display scale of the specification: [min(1, 700 / width)]. *)
Definition display_scale (width : Z) : outcome float :=
  if width >? canvas_width then int_true_div canvas_width width else Return one.

(** The mapping the specification states: every coordinate divided by the
    display scale. *)
Definition uniform_scale_box (width : Z) (left top w h : json) : outcome box :=
  (s <- display_scale width ;;
   x0 <- div_float left s ;;
   y0 <- div_float top s ;;
   right <- py_add left w ;;
   x1 <- div_float right s ;;
   bottom <- py_add top h ;;
   y1 <- div_float bottom s ;;
   Return [x0; y0; x1; y1])%out.

(** The mapping with one factor per axis. *)
Definition per_axis_box (scale_x scale_y : float) (left top w h : json) : outcome box :=
  (x0 <- mul_float left scale_x ;;
   y0 <- mul_float top scale_y ;;
   right <- py_add left w ;;
   x1 <- mul_float right scale_x ;;
   bottom <- py_add top h ;;
   y1 <- mul_float bottom scale_y ;;
   Return [x0; y0; x1; y1])%out.

(** The requests sent to the segmentation model, in order. *)
Definition sam_requests (log : list event) : list (list box) :=
  flat_map (fun ev => match ev with SamPredict _ bboxes => [bboxes] | _ => [] end) log.

Definition f200 : float := S754_finite false 7036874417766400 (-45).
Definition f100 : float := S754_finite false 7036874417766400 (-46).
Definition f600 : float := S754_finite false 5277655813324800 (-43).
Definition f300 : float := S754_finite false 5277655813324800 (-44).

Definition f100_1 : float := S754_finite false 7043911292184166 (-46).
Definition f300_3 : float := S754_finite false 5282933469138124 (-44).

(** [a / 1000] and [float(n)] as floats, where they are defined. *)
Definition unit_frac (a : Z) : float :=
  match int_true_div a 1000 with Return f => f | Raise _ => S754_nan end.
Definition to_float (n : Z) : float :=
  match float_of_int n with Return f => f | Raise _ => S754_nan end.

(** A normalized box [(ymin, xmin, ymax, xmax)]. *)
Definition norm_box : Type := Z * Z * Z * Z.

Definition in_scale (nb : norm_box) : Prop :=
  let '(ymin, xmin, ymax, xmax) := nb in
  (0 <= ymin <= 1000) /\ (0 <= xmin <= 1000) /\ (0 <= ymax <= 1000) /\ (0 <= xmax <= 1000).

(** The pixel box of the specification:
    [[xmin/1000*w, ymin/1000*h, xmax/1000*w, ymax/1000*h]]. *)
Definition scaled_box (w h : Z) (nb : norm_box) : box :=
  let '(ymin, xmin, ymax, xmax) := nb in
  [fmul (unit_frac xmin) (to_float w); fmul (unit_frac ymin) (to_float h);
   fmul (unit_frac xmax) (to_float w); fmul (unit_frac ymax) (to_float h)].

(** A parsed entry whose [box_2d] is the normalized box [nb]. *)
Definition entry_of (item : json) (nb : norm_box) : Prop :=
  let '(ymin, xmin, ymax, xmax) := nb in
  exists kv,
    item = JObj kv /\
    lookup (lit "box_2d") kv = Some (JList [JInt ymin; JInt xmin; JInt ymax; JInt xmax]) /\
    in_scale nb.

(** The reply of the scenario, [[{"label":"Floor","box_2d":[700,0,1000,1000]}]],
    and its value. *)
Definition reply_floor : pystr :=
  lit "[{" ++ dquote ++ lit "label" ++ dquote ++ lit ":" ++ dquote ++ lit "Floor" ++ dquote
      ++ lit "," ++ dquote ++ lit "box_2d" ++ dquote ++ lit ":[700,0,1000,1000]}]".
Definition value_floor : json :=
  JList [JObj [(lit "label", JStr (lit "Floor"));
               (lit "box_2d", JList [JInt 700; JInt 0; JInt 1000; JInt 1000])]].

Definition f0 : float := S754_zero false.
Definition f700 : float := S754_finite false 6157265115545600 (-43).
Definition f2000 : float := S754_finite false 8796093022208000 (-42).
Definition f1000 : float := S754_finite false 8796093022208000 (-43).

(** ** Definitions for the rest of the script *)

(** The conversions of a list of entries, in order, up to the first failure. *)
Fixpoint map_outcome {A B} (f : A -> outcome B) (l : list A) : outcome (list B) :=
  match l with
  | [] => Return []
  | a :: r => (b <- f a ;; bs <- map_outcome f r ;; Return (b :: bs))%out
  end.

(** What [item.get("label", "Object")] gives for an entry that is a [dict]. *)
Definition label_of (item : json) : json :=
  match item with
  | JObj kv => match lookup (lit "label") kv with Some x => x | None => JStr (lit "Object") end
  | _ => JNull
  end.

(** The text [[{"box_2d":[1,2,3]}]] and its value: a box of three numbers. *)
Definition reply_short_box : pystr :=
  lit "[{" ++ dquote ++ lit "box_2d" ++ dquote ++ lit ":[1,2,3]}]".
Definition value_short_box : json :=
  JList [JObj [(lit "box_2d", JList [JInt 1; JInt 2; JInt 3])]].

(** A world whose segmentation model returns one result that is false (a
    result object of length 0). *)
Definition empty_result_libs : libs :=
  {| json_loads := loads_only reply_floor value_floor;
     generate_text := fun _ => Return reply_floor;
     sam_model := fun _ => Return [{| plot := 2; nonempty := false |}];
     exn_text := fun _ => lit "error";
     prompt := lit "detect ceiling, wall, floor" |}.

(** A world whose segmentation model returns no result. *)
Definition no_result_libs : libs :=
  {| json_loads := loads_only reply_floor value_floor;
     generate_text := fun _ => Return reply_floor;
     sam_model := fun _ => Return [];
     exn_text := fun _ => lit "list index out of range";
     prompt := lit "detect ceiling, wall, floor" |}.

Definition is_configure (ev : event) : bool :=
  match ev with Configure _ => true | _ => false end.

(** What the script reads of a listed model. *)
Record model_info : Type := {
  name : pystr;
  supported_generation_methods : list pystr
}.

(** [p] is a prefix of [s]. *)
Fixpoint starts_with (p s : pystr) : bool :=
  match p, s with
  | [], _ => true
  | a :: p', b :: s' => (a =? b)%N && starts_with p' s'
  | _ :: _, [] => false
  end.

(** [needle in hay] on two [str]. *)
Fixpoint contains (needle hay : pystr) : bool :=
  starts_with needle hay ||
  match hay with
  | [] => false
  | _ :: rest => contains needle rest
  end.

(** ['generateContent' in m.supported_generation_methods], on a list. *)
Definition supports_generate (m : model_info) : bool :=
  existsb (str_eqb (lit "generateContent")) (supported_generation_methods m).

(** The loop filling [available_models]. *)
Fixpoint available (models : list model_info) : list pystr :=
  match models with
  | [] => []
  | m :: rest =>
      if supports_generate m then name m :: available rest else available rest
  end.

(** ["flash" in name and "1.5" in name] *)
Definition is_flash_15 (model_name : pystr) : bool :=
  contains (lit "flash") model_name && contains (lit "1.5") model_name.

(** The loop over [enumerate(available_models)], from index [i], with its
    [break]; [default_idx] is the value the variable has before the loop. *)
Fixpoint scan_default (names : list pystr) (i default_idx : nat) : nat :=
  match names with
  | [] => default_idx
  | model_name :: rest =>
      if is_flash_15 model_name then i else scan_default rest (S i) default_idx
  end.

Definition default_index (names : list pystr) : nat := scan_default names 0 0.

(** What the sidebar does to the outside world. *)
Inductive side_event : Type :=
| SideConfigure (api_key : pystr)
| SideListModels
| SideSelectbox (options : list pystr) (index : nat)
| SideError (text : pystr).

(** [st.selectbox(label, options, index)]: the option the user has chosen,
    when there is one among the options, and [options[index]] otherwise. *)
Definition selectbox (options : list pystr) (index : nat) (choice : option pystr) : pystr :=
  match choice with
  | Some c => if existsb (str_eqb c) options then c else nth index options []
  | None => nth index options []
  end.

Definition msg_no_models : pystr := lit "利用可能なモデルが見つかりません".

(** Lines 28-48: the value of [selected_gemini_model] and what was done to
    get it.  [models] is what iterating [genai.list_models()] gives; the bare
    [except: pass] drops every exception. *)
Definition sidebar (models : outcome (list model_info)) (choice : option pystr)
           (api_key : pystr) : pystr * list side_event :=
  if str_truthy api_key then
    match models with
    | Raise _ => ([], [SideConfigure api_key; SideListModels])
    | Return ms =>
        let available_models := available ms in
        match available_models with
        | [] => ([], [SideConfigure api_key; SideListModels; SideError msg_no_models])
        | _ :: _ =>
            let default_idx := default_index available_models in
            (selectbox available_models default_idx choice,
             [SideConfigure api_key; SideListModels;
              SideSelectbox available_models default_idx])
        end
    end
  else ([], []).

Definition type_fast : pystr := lit "高速 (MobileSAM)".
Definition type_precise : pystr := lit "高精度 (SAM Base)".

(** The body of [load_sam_model]: the weights file given to [SAM]. *)
Definition weights_of (model_type : pystr) : pystr :=
  if str_eqb model_type type_fast then lit "mobile_sam.pt" else lit "sam_b.pt".

(** The store of [st.cache_resource]: the handles built so far, by argument. *)
Definition cache : Type := list (pystr * N).

Fixpoint cached (model_type : pystr) (c : cache) : option N :=
  match c with
  | [] => None
  | (k, handle) :: rest => if str_eqb model_type k then Some handle else cached model_type rest
  end.

(** [load_sam_model(model_type)] under [@st.cache_resource]: a stored handle
    is returned without running the body; otherwise [SAM(weights)] is built
    by [construct] and stored when it succeeds.  The third component lists
    the weights files that were loaded. *)
Definition load_sam_model (construct : pystr -> outcome N) (c : cache) (model_type : pystr)
  : outcome N * cache * list pystr :=
  match cached model_type c with
  | Some handle => (Return handle, c, [])
  | None =>
      match construct (weights_of model_type) with
      | Return handle => (Return handle, (model_type, handle) :: c, [weights_of model_type])
      | Raise e => (Raise e, c, [weights_of model_type])
      end
  end.

(** What one run of the whole script does, by part of the script. *)
Inductive script_event : Type :=
| Side (e : side_event)
| LoadWeights (file : pystr)
| SidebarSuccess (text : pystr)
| SidebarInfo (text : pystr)
| TopError (text : pystr)
| Stop
| Main (e : event).

(** What the widgets return in one run. *)
Record inputs : Type := {
  api_key_in : pystr;
  choice_in : option pystr;
  sam_type_in : pystr;
  uploaded_in : option image;
  clicked_in : bool;
  canvas_in : json
}.

Definition msg_load_error : pystr := lit "モデル読み込みエラー: ".
Definition msg_precise_in_use : pystr := lit "✨ 高精度モデル使用中".
Definition msg_fast_in_use : pystr := lit "🚀 高速モデル使用中".

(** One run of the script: the sidebar, the loader with its [try], then
    [main]; [st.stop()] ends the run. *)
Definition script (L : libs) (models : outcome (list model_info))
           (construct : pystr -> outcome N) (c : cache) (i : inputs)
  : outcome unit * list script_event * cache :=
  let '(selected_gemini_model, side) := sidebar models (choice_in i) (api_key_in i) in
  let '(loaded, c', files) := load_sam_model construct c (sam_type_in i) in
  let before := map Side side ++ map LoadWeights files in
  match loaded with
  | Raise e => (Return tt, before ++ [TopError (msg_load_error ++ exn_text L e); Stop], c')
  | Return _ =>
      let status :=
        if str_eqb (sam_type_in i) type_precise then SidebarSuccess msg_precise_in_use
        else SidebarInfo msg_fast_in_use in
      let '(o, log) :=
        main L (uploaded_in i) (api_key_in i) selected_gemini_model (clicked_in i)
             (canvas_in i) [] in
      (o, before ++ status :: map Main log, c')
  end.

(** An event that reaches the remote service. *)
Definition is_network (ev : script_event) : bool :=
  match ev with
  | Side SideListModels => true
  | Main (GenerateContent _ _ _) => true
  | _ => false
  end.

Definition sample_inputs (key : pystr) (img : option image) (click : bool) : inputs :=
  {| api_key_in := key; choice_in := None; sam_type_in := type_precise;
     uploaded_in := img; clicked_in := click;
     canvas_in := canvas_state [rect 100 50 200 100] |}.

(* ================================================================== *)
(** * Properties *)

Lemma digits2_pos_size m : digits2_pos m = Pos.size m.
Proof. induction m; simpl; congruence. Qed.

Lemma digits2_log2 m : Zpos (digits2_pos m) = Z.log2 (Zpos m) + 1.
Proof.
  rewrite digits2_pos_size. destruct m; simpl; rewrite ?Pos2Z.inj_succ; lia.
Qed.

Lemma digits2_bounds m :
  2 ^ (Zpos (digits2_pos m) - 1) <= Zpos m < 2 ^ Zpos (digits2_pos m).
Proof.
  rewrite digits2_log2.
  replace (Z.log2 (Z.pos m) + 1 - 1) with (Z.log2 (Zpos m)) by lia.
  replace (Z.log2 (Z.pos m) + 1) with (Z.succ (Z.log2 (Zpos m))) by lia.
  apply Z.log2_spec. lia.
Qed.

Lemma iter_pos_commute {A} (f : A -> A) p x :
  iter_pos f p (f x) = f (iter_pos f p x).
Proof.
  revert x. induction p; intros; simpl; rewrite ?IHp; reflexivity.
Qed.

Lemma iter_pos_succ {A} (f : A -> A) p x :
  iter_pos f (Pos.succ p) x = f (iter_pos f p x).
Proof.
  revert x. induction p; intros; simpl.
  - rewrite !IHp. rewrite !iter_pos_commute. reflexivity.
  - rewrite !iter_pos_commute. reflexivity.
  - reflexivity.
Qed.

Lemma shifted_0 a : 0 <= a -> shifted a 0 (Build_shr_record a false false).
Proof.
  intros Ha. exists 0. simpl. repeat split; try lia; try congruence.
Qed.

Lemma shr_1_spec m r s :
  0 <= m ->
  shr_1 (Build_shr_record m r s) = Build_shr_record (m / 2) (Z.odd m) (r || s).
Proof.
  intros Hm. destruct m as [|[p|p|]|p]; try lia; try reflexivity.
  - simpl shr_1. f_equal. rewrite Pos2Z.inj_xI.
    apply Z.div_unique with 1; lia.
  - simpl shr_1. f_equal. rewrite Pos2Z.inj_xO.
    apply Z.div_unique with 0; lia.
Qed.

Lemma shifted_step a k mrs :
  0 <= k -> shifted a k mrs -> shifted a (k + 1) (shr_1 mrs).
Proof.
  intros Hk (low & Hlow & Hlt & Ha & Hs & Hr & Hm).
  destruct mrs as [m r s]. simpl in Hlt, Ha, Hs, Hr, Hm.
  rewrite shr_1_spec by assumption.
  assert (P2 : 2 ^ (k + 1) = 2 * 2 ^ k) by (rewrite Z.pow_add_r by lia; lia).
  assert (H2 : 2 ^ (k + 1) / 2 = 2 ^ k).
  { rewrite P2. rewrite Z.mul_comm, Z.div_mul by lia. reflexivity. }
  assert (Hpos : 0 < 2 ^ k) by (apply Z.pow_pos_nonneg; lia).
  assert (Hrk : r = true -> k <> 0) by (intros -> Hk0; specialize (Hr Hk0); discriminate).
  assert (Hm2 : m = 2 * (m / 2) + (if Z.odd m then 1 else 0)).
  { rewrite (Z.div_mod m 2) at 1 by lia. rewrite Zmod_odd. reflexivity. }
  exists ((if r then 2 ^ k / 2 else 0) + low). cbn [shr_m shr_r shr_s].
  rewrite H2.
  assert (Hlow' : 0 <= (if r then 2 ^ k / 2 else 0) + low).
  { destruct r; [|lia]. assert (0 <= 2 ^ k / 2) by (apply Z.div_pos; lia). lia. }
  split; [exact Hlow'|].
  split.
  { left. destruct r; [specialize (Hrk eq_refl)|]; dlia. }
  split.
  { rewrite Ha, P2. rewrite Hm2 at 1. destruct (Z.odd m); lia. }
  split.
  { destruct r; cbn [orb].
    - specialize (Hrk eq_refl).
      assert (0 < 2 ^ k / 2).
      { replace k with ((k - 1) + 1) by lia. rewrite Z.pow_add_r by lia.
        rewrite Z.pow_1_r, Z.div_mul by lia. apply Z.pow_pos_nonneg; lia. }
      split; intros; [lia|reflexivity].
    - rewrite Hs. split; intros; lia. }
  split; [lia|].
  apply Z.div_pos; lia.
Qed.

Lemma shifted_iter a p mrs :
  shifted a 0 mrs -> shifted a (Zpos p) (iter_pos shr_1 p mrs).
Proof.
  intros H0. induction p using Pos.peano_ind.
  - simpl. apply (shifted_step a 0); [lia|assumption].
  - rewrite iter_pos_succ. rewrite Pos2Z.inj_succ.
    apply shifted_step; [lia|assumption].
Qed.

Lemma shifted_round a k mrs :
  0 <= k -> shifted a k mrs ->
  round_nearest_even (shr_m mrs) (loc_of_shr_record mrs) = rne a k.
Proof.
  intros Hk (low & Hlow & Hlt & Ha & Hs & Hr & Hm).
  destruct mrs as [m r s]. simpl in Hlt, Ha, Hs, Hr, Hm.
  assert (Hpos : 0 < 2 ^ k) by (apply Z.pow_pos_nonneg; lia).
  assert (Hhalf : k = 0 \/ 2 * (2 ^ k / 2) = 2 ^ k).
  { destruct (Z.eq_dec k 0) as [->|]; [left; reflexivity|right].
    replace k with ((k - 1) + 1) by lia. rewrite Z.pow_add_r by lia.
    rewrite Z.pow_1_r. rewrite Z.div_mul by lia. lia. }
  assert (Hrem : 0 <= (if r then 2 ^ k / 2 else 0) + low < 2 ^ k).
  { destruct r.
    - destruct Hhalf as [->|]; [specialize (Hr eq_refl); discriminate|].
      destruct Hlt; lia.
    - destruct Hlt as [Hlt|[-> ->]]; [|lia].
      assert (2 ^ k / 2 <= 2 ^ k) by (apply Z.div_le_upper_bound; lia). lia. }
  unfold rne. cbv zeta.
  assert (Hq : a / 2 ^ k = m).
  { symmetry. apply Z.div_unique with ((if r then 2 ^ k / 2 else 0) + low); lia. }
  assert (Hmod : a mod 2 ^ k = (if r then 2 ^ k / 2 else 0) + low).
  { symmetry. apply Z.mod_unique with m; lia. }
  rewrite Hq, Hmod.
  assert (Hlow0 : s = false -> low = 0).
  { intros ->. destruct (Z.eq_dec low 0) as [|n]; [assumption|].
    apply Hs in n. discriminate. }
  assert (Hlow1 : s = true -> low <> 0) by (intros ->; apply Hs; reflexivity).
  destruct r; cbn [loc_of_shr_record round_nearest_even].
  - destruct Hhalf as [->|Hhalf]; [specialize (Hr eq_refl); discriminate|].
    destruct s; cbn [loc_of_shr_record round_nearest_even].
    + specialize (Hlow1 eq_refl).
      assert (Hc : (2 * (2 ^ k / 2 + low) ?= 2 ^ k) = Gt)
        by (apply Z.compare_gt_iff; lia).
      rewrite Hc. reflexivity.
    + rewrite (Hlow0 eq_refl).
      assert (Hc : (2 * (2 ^ k / 2 + 0) ?= 2 ^ k) = Eq)
        by (apply Z.compare_eq_iff; lia).
      rewrite Hc. reflexivity.
  - assert (Hc : (2 * (0 + low) ?= 2 ^ k) = Lt).
    { apply Z.compare_lt_iff.
      destruct Hlt as [Hlt|[? ?]]; [|lia]. clear - Hlt. dlia. }
    rewrite Hc. destruct s; reflexivity.
Qed.

Lemma pow2_pos k : 0 <= k -> 0 < 2 ^ k.
Proof. intros; apply Z.pow_pos_nonneg; lia. Qed.

Lemma rne_bounds a k :
  0 <= k -> a / 2 ^ k <= rne a k <= a / 2 ^ k + 1.
Proof.
  intros Hk. unfold rne. cbv zeta.
  destruct (2 * (a mod 2 ^ k) ?= 2 ^ k); [destruct (Z.even _)| |]; lia.
Qed.

Lemma rne_mono a b k : 0 <= k -> a <= b -> rne a k <= rne b k.
Proof.
  intros Hk Hab.
  pose proof (pow2_pos k Hk) as Hp.
  assert (Hq : a / 2 ^ k <= b / 2 ^ k) by (apply Z.div_le_mono; lia).
  destruct (Z.eq_dec (a / 2 ^ k) (b / 2 ^ k)) as [Heq|Hne].
  - assert (Hr : a mod 2 ^ k <= b mod 2 ^ k).
    { rewrite !Z.mod_eq by lia. rewrite Heq. lia. }
    unfold rne. cbv zeta. rewrite Heq.
    destruct (Z.compare_spec (2 * (a mod 2 ^ k)) (2 ^ k));
      destruct (Z.compare_spec (2 * (b mod 2 ^ k)) (2 ^ k));
      destruct (Z.even (b / 2 ^ k)); lia.
  - pose proof (rne_bounds a k Hk). pose proof (rne_bounds b k Hk). lia.
Qed.

Lemma rne_scale a k j :
  0 <= k -> 0 <= j -> rne (a * 2 ^ j) (k + j) = rne a k.
Proof.
  intros Hk Hj.
  pose proof (pow2_pos k Hk) as Hpk. pose proof (pow2_pos j Hj) as Hpj.
  unfold rne. cbv zeta.
  rewrite Z.pow_add_r by lia.
  rewrite Z.div_mul_cancel_r by lia.
  rewrite Z.mul_mod_distr_r by lia.
  replace (2 * (a mod 2 ^ k * 2 ^ j)) with ((2 * (a mod 2 ^ k)) * 2 ^ j) by lia.
  rewrite <- Zmult_compare_compat_r by lia. reflexivity.
Qed.

Lemma rne_0 a : rne a 0 = a.
Proof.
  unfold rne. cbv zeta. rewrite Z.pow_0_r, Z.div_1_r, Z.mod_1_r. reflexivity.
Qed.

Lemma rne_nonneg a k : 0 <= k -> 0 <= a -> 0 <= rne a k.
Proof.
  intros Hk Ha. pose proof (rne_bounds a k Hk).
  assert (0 <= a / 2 ^ k) by (apply Z.div_pos; [lia|apply pow2_pos; lia]). lia.
Qed.

Lemma rne_upper a k p :
  0 <= k -> 0 <= p -> a < 2 ^ (k + p) -> rne a k <= 2 ^ p.
Proof.
  intros Hk Hp Ha. pose proof (rne_bounds a k Hk).
  assert (a / 2 ^ k < 2 ^ p).
  { apply Z.div_lt_upper_bound; [apply pow2_pos; lia|].
    rewrite <- Z.pow_add_r by lia. assumption. }
  lia.
Qed.

Lemma rne_lower a k p :
  0 <= k -> 0 <= p -> 2 ^ (k + p) <= a -> 2 ^ p <= rne a k.
Proof.
  intros Hk Hp Ha. pose proof (rne_bounds a k Hk).
  assert (2 ^ p <= a / 2 ^ k).
  { apply Z.div_le_lower_bound; [apply pow2_pos; lia|].
    rewrite <- Z.pow_add_r by lia. assumption. }
  lia.
Qed.

Lemma fexp_ge_emin x : emin prec emax <= fexp prec emax x.
Proof. unfold fexp. lia. Qed.

Lemma shr_exact a e n :
  0 <= a -> 0 <= n ->
  let '(mrs, e') := shr (Build_shr_record a false false) e n in
  round_nearest_even (shr_m mrs) (loc_of_shr_record mrs) = rne a n /\ e' = e + n.
Proof.
  intros Ha Hn. destruct n as [|p|p]; try lia.
  - simpl. rewrite rne_0. split; [reflexivity|lia].
  - cbn [shr]. split; [|reflexivity].
    apply shifted_round; [lia|].
    apply shifted_iter. apply shifted_0. assumption.
Qed.

Lemma Zdigits2_le q p :
  0 <= p -> 0 <= q < 2 ^ p -> Zdigits2 q <= p.
Proof.
  intros Hp [Hq0 Hq]. destruct q as [|m|m]; [exact Hp| |lia].
  cbn [Zdigits2]. pose proof (digits2_bounds m) as [Hlo _].
  destruct (Z_le_gt_dec (Zpos (digits2_pos m)) p) as [|Hgt]; [assumption|exfalso].
  assert (2 ^ p <= 2 ^ (Zpos (digits2_pos m) - 1)) by (apply Z.pow_le_mono_r; lia).
  lia.
Qed.

Lemma round_aux_exact sx m e :
  let E := fexp prec emax (Zpos (digits2_pos m) + e) in
  e <= E ->
  binary_round_aux prec emax sx (Zpos m) e loc_Exact
  = pack sx (rne (Zpos m) (E - e)) E
  /\ 0 <= rne (Zpos m) (E - e) <= two53.
Proof.
  intros E HE.
  assert (Hq : 0 <= rne (Zpos m) (E - e) <= two53).
  { split; [apply rne_nonneg; lia|].
    change two53 with (2 ^ 53). apply rne_upper; try lia.
    pose proof (digits2_bounds m) as [_ Hhi].
    eapply Z.lt_le_trans; [exact Hhi|].
    apply Z.pow_le_mono_r; [lia|]. unfold E, fexp, prec. lia. }
  split; [|exact Hq].
  unfold binary_round_aux, shr_fexp. cbn [Zdigits2 shr_record_of_loc].
  fold E.
  pose proof (shr_exact (Zpos m) e (E - e)) as H1.
  destruct (shr _ e (E - e)) as [mrs' e'].
  destruct H1 as [H1 H1e]; [lia|lia|].
  rewrite H1. subst e'. replace (e + (E - e)) with E by lia.
  set (q := rne (Zpos m) (E - e)) in *.
  pose proof (fexp_ge_emin (Zpos (digits2_pos m) + e)) as Hemin. fold E in Hemin.
  destruct (Z_lt_le_dec q two53) as [Hlt|Hge].
  - (* no carry *)
    assert (Hd : Zdigits2 q <= 53) by (apply Zdigits2_le; [lia|change (2^53) with two53; lia]).
    assert (Hn : fexp prec emax (Zdigits2 q + E) - E <= 0).
    { unfold fexp, prec in *. lia. }
    unfold shr.
    destruct (fexp prec emax (Zdigits2 q + E) - E) as [|p|p] eqn:Hs; try lia;
      cbn [shr_m]; unfold pack; destruct q as [|mq|mq]; try lia; try reflexivity;
      (destruct (Z.ltb_spec (Zpos mq) two53); [reflexivity|lia]).
  - assert (Hq53 : q = two53) by lia.
    rewrite Hq53.
    assert (Hn : fexp prec emax (Zdigits2 two53 + E) - E = 1).
    { change (Zdigits2 two53) with 54. unfold fexp, prec in *. lia. }
    rewrite Hn. reflexivity.
Qed.

Lemma fleb_finite m1 e1 m2 e2 :
  e1 < e2 \/ (e1 = e2 /\ (m1 <= m2)%positive) ->
  fleb (S754_finite false m1 e1) (S754_finite false m2 e2) = true.
Proof.
  intros H. unfold fleb, SFleb, SFcompare.
  destruct H as [Hlt|[-> Hle]].
  - apply Z.compare_lt_iff in Hlt. rewrite Hlt. reflexivity.
  - rewrite Z.compare_refl.
    change (Pos.compare_cont Eq m1 m2) with (Pos.compare m1 m2).
    unfold Pos.le in Hle. destruct (m1 ?= m2)%positive; [reflexivity|reflexivity|].
    exfalso; apply Hle; reflexivity.
Qed.

Lemma fleb_zero_l s f : nonneg_shape f -> fleb (S754_zero s) f = true.
Proof. destruct f as [[|]|[|]| |[|] ? ?]; simpl; intros H; try reflexivity; contradiction. Qed.

Lemma pack_cases q E :
  0 <= q <= two53 ->
  (q = 0 /\ pack false q E = S754_zero false) \/
  (0 < q < two53 /\ E <= emax - prec /\ pack false q E = S754_finite false (Z.to_pos q) E) \/
  (0 < q < two53 /\ emax - prec < E /\ pack false q E = S754_infinity false) \/
  (q = two53 /\ E + 1 <= emax - prec /\
   pack false q E = S754_finite false (Z.to_pos two52) (E + 1)) \/
  (q = two53 /\ emax - prec < E + 1 /\ pack false q E = S754_infinity false).
Proof.
  intros [H0 H1]. unfold pack.
  destruct q as [|m|m]; [left; split; reflexivity| |lia].
  destruct (Z.ltb_spec (Zpos m) two53).
  - destruct (Z.leb_spec E (emax - prec)).
    + right; left. repeat split; try lia.
    + right; right; left. repeat split; try lia.
  - destruct (Z.leb_spec (E + 1) (emax - prec)).
    + right; right; right; left. repeat split; try lia.
    + right; right; right; right. repeat split; try lia.
Qed.

Lemma two52_lt_two53 : two52 < two53.
Proof. reflexivity. Qed.

Lemma pack_mono_same q1 q2 E :
  0 <= q1 -> q1 <= q2 -> q2 <= two53 ->
  fleb (pack false q1 E) (pack false q2 E) = true.
Proof.
  intros H0 H12 H2.
  pose proof two52_lt_two53 as H5253.
  assert (H52 : 0 < two52) by reflexivity.
  destruct (pack_cases q1 E) as [[? ->]|[(?&?& ->)|[(?&?& ->)|[(?&?& ->)|(?&?& ->)]]]];
    [lia| | | | |];
  destruct (pack_cases q2 E) as [[? ->]|[(?&?& ->)|[(?&?& ->)|[(?&?& ->)|(?&?& ->)]]]];
    try lia; try reflexivity.
  - apply fleb_finite. right. split; [reflexivity|].
    unfold Pos.le. rewrite <- Z2Pos.inj_compare by lia.
    apply Z.compare_le_iff. lia.
  - apply fleb_finite. left. lia.
  - apply fleb_finite. right. split; reflexivity || apply Pos.le_refl.
Qed.

Lemma pack_mono_lt q1 q2 E1 E2 :
  E1 < E2 -> 0 <= q1 <= two53 -> two52 <= q2 <= two53 ->
  fleb (pack false q1 E1) (pack false q2 E2) = true.
Proof.
  intros HE H1 H2.
  pose proof two52_lt_two53 as H5253.
  assert (H52 : 0 < two52) by reflexivity.
  destruct (pack_cases q1 E1) as [[? ->]|[(?&?& ->)|[(?&?& ->)|[(?&?& ->)|(?&?& ->)]]]];
    [lia| | | | |];
  destruct (pack_cases q2 E2) as [[? ->]|[(?&?& ->)|[(?&?& ->)|[(?&?& ->)|(?&?& ->)]]]];
    try lia; try reflexivity.
  - apply fleb_finite. left. lia.
  - apply fleb_finite. left. lia.
  - apply fleb_finite.
    destruct (Z.eq_dec (E1 + 1) E2) as [<-|]; [right|left; lia].
    split; [reflexivity|].
    unfold Pos.le. rewrite <- Z2Pos.inj_compare by lia.
    apply Z.compare_le_iff. lia.
  - apply fleb_finite. left. lia.
Qed.

Lemma scaled_digits m e c :
  c <= e ->
  2 ^ (Zpos (digits2_pos m) + e - c - 1) <= Zpos m * 2 ^ (e - c)
  < 2 ^ (Zpos (digits2_pos m) + e - c).
Proof.
  intros Hc. pose proof (digits2_bounds m) as [Hlo Hhi].
  pose proof (pow2_pos (e - c) ltac:(lia)) as Hp.
  replace (Zpos (digits2_pos m) + e - c - 1)
    with ((Zpos (digits2_pos m) - 1) + (e - c)) by lia.
  replace (Zpos (digits2_pos m) + e - c)
    with (Zpos (digits2_pos m) + (e - c)) by lia.
  rewrite !Z.pow_add_r by lia.
  split.
  - apply Z.mul_le_mono_nonneg_r; lia.
  - apply Z.mul_lt_mono_pos_r; lia.
Qed.

Lemma round_exact_mono m1 e1 m2 e2 c :
  c <= e1 -> c <= e2 ->
  Zpos m1 * 2 ^ (e1 - c) <= Zpos m2 * 2 ^ (e2 - c) ->
  e1 <= fexp prec emax (Zpos (digits2_pos m1) + e1) ->
  e2 <= fexp prec emax (Zpos (digits2_pos m2) + e2) ->
  fleb (binary_round_aux prec emax false (Zpos m1) e1 loc_Exact)
       (binary_round_aux prec emax false (Zpos m2) e2 loc_Exact) = true.
Proof.
  intros Hc1 Hc2 Hle HE1 HE2.
  destruct (round_aux_exact false m1 e1 HE1) as [-> Hq1].
  destruct (round_aux_exact false m2 e2 HE2) as [-> Hq2].
  set (d1 := Zpos (digits2_pos m1)) in *.
  set (d2 := Zpos (digits2_pos m2)) in *.
  set (E1 := fexp prec emax (d1 + e1)) in *.
  set (E2 := fexp prec emax (d2 + e2)) in *.
  pose proof (scaled_digits m1 e1 c Hc1) as [Hlo1 Hhi1].
  pose proof (scaled_digits m2 e2 c Hc2) as [Hlo2 Hhi2].
  fold d1 in Hlo1, Hhi1. fold d2 in Hlo2, Hhi2.
  assert (Hd : d1 + e1 <= d2 + e2).
  { assert (Hlt : 2 ^ (d1 + e1 - c - 1) < 2 ^ (d2 + e2 - c)) by lia.
    apply Z.pow_lt_mono_r_iff in Hlt; [lia|lia|].
    assert (0 < d2) by (unfold d2; lia). lia. }
  assert (HE : E1 <= E2) by (unfold E1, E2, fexp; lia).
  assert (Hr1 : rne (Zpos m1) (E1 - e1) = rne (Zpos m1 * 2 ^ (e1 - c)) (E1 - c)).
  { replace (E1 - c) with ((E1 - e1) + (e1 - c)) by lia.
    rewrite rne_scale by lia. reflexivity. }
  assert (Hr2 : rne (Zpos m2) (E2 - e2) = rne (Zpos m2 * 2 ^ (e2 - c)) (E2 - c)).
  { replace (E2 - c) with ((E2 - e2) + (e2 - c)) by lia.
    rewrite rne_scale by lia. reflexivity. }
  destruct (Z.eq_dec E1 E2) as [Heq|Hne].
  - rewrite <- Heq in *.
    apply pack_mono_same; try lia.
    rewrite Hr1, Hr2. apply rne_mono; lia.
  - apply pack_mono_lt; try lia.
    split; [|lia].
    assert (HE2' : E2 = d2 + e2 - 53).
    { pose proof (fexp_ge_emin (d1 + e1)) as Hm. fold E1 in Hm.
      unfold E2, fexp, prec in *. lia. }
    rewrite Hr2. change two52 with (2 ^ 52).
    apply rne_lower; try lia.
    replace (E2 - c + 52) with (d2 + e2 - c - 1) by lia. exact Hlo2.
Qed.

Lemma iter_xO_spec m d :
  Zpos (Pos.iter xO m d) = Zpos m * 2 ^ Zpos d /\
  Zpos (digits2_pos (Pos.iter xO m d)) = Zpos (digits2_pos m) + Zpos d.
Proof.
  induction d using Pos.peano_ind.
  - simpl. split; lia.
  - rewrite Pos.iter_succ. destruct IHd as [IH1 IH2].
    cbn [digits2_pos]. rewrite Pos2Z.inj_xO, IH1, !Pos2Z.inj_succ, IH2.
    rewrite Z.pow_succ_r by lia. split; lia.
Qed.

Lemma shl_align_spec m e :
  let '(mz, ez) := shl_align m e (fexp prec emax (Zpos (digits2_pos m) + e)) in
  ez <= e /\ Zpos mz = Zpos m * 2 ^ (e - ez) /\
  Zpos (digits2_pos mz) + ez = Zpos (digits2_pos m) + e /\
  ez <= fexp prec emax (Zpos (digits2_pos mz) + ez).
Proof.
  unfold shl_align.
  set (E := fexp prec emax (Zpos (digits2_pos m) + e)).
  destruct (E - e) as [|p|p] eqn:Hd.
  - rewrite Z.sub_diag, Z.pow_0_r. fold E. repeat split; lia.
  - rewrite Z.sub_diag, Z.pow_0_r. fold E. repeat split; lia.
  - destruct (iter_xO_spec m p) as [H1 H2].
    replace (e - E) with (Zpos p) by lia.
    rewrite H2. replace (Zpos (digits2_pos m) + Zpos p + E) with (Zpos (digits2_pos m) + e) by lia.
    fold E. repeat split; try lia; try exact H1.
Qed.

Lemma pack_shape q E : 0 <= q <= two53 -> nonneg_shape (pack false q E).
Proof.
  intros Hq.
  destruct (pack_cases q E Hq) as [[? ->]|[(?&?& ->)|[(?&?& ->)|[(?&?& ->)|(?&?& ->)]]]];
    exact I.
Qed.

Lemma float_of_int_pos_round w :
  exists mz ez,
    binary_normalize prec emax (Zpos w) 0 false
    = binary_round_aux prec emax false (Zpos mz) ez loc_Exact /\
    ez <= 0 /\ Zpos mz = Zpos w * 2 ^ (- ez) /\
    Zpos (digits2_pos mz) + ez = Zpos (digits2_pos w) /\
    ez <= fexp prec emax (Zpos (digits2_pos mz) + ez).
Proof.
  cbn [binary_normalize]. unfold binary_round.
  pose proof (shl_align_spec w 0) as H.
  destruct (shl_align w 0 _) as [mz ez].
  destruct H as (H1 & H2 & H3 & H4).
  exists mz, ez. repeat split; try assumption; lia.
Qed.

Lemma float_of_int_shape n f :
  0 <= n -> float_of_int n = Return f ->
  match f with
  | S754_zero false | S754_finite false _ _ => True
  | _ => False
  end.
Proof.
  intros Hn. unfold float_of_int.
  destruct n as [|w|w]; [| |lia].
  - cbn. intros [= <-]. exact I.
  - destruct (float_of_int_pos_round w) as (mz & ez & -> & _ & _ & _ & HE).
    destruct (round_aux_exact false mz ez HE) as [-> Hq].
    pose proof (pack_shape _ (fexp prec emax (Zpos (digits2_pos mz) + ez)) Hq) as Hs.
    destruct (pack _ _ _) as [[|]|[|]| |[|] ? ?]; try contradiction;
      intros [= <-]; exact I.
Qed.

Lemma float_of_int_total n :
  0 <= n < 2 ^ 1023 -> exists f, float_of_int n = Return f.
Proof.
  intros [Hn Hlt]. unfold float_of_int.
  destruct n as [|w|w]; [| |lia].
  - cbn. eexists; reflexivity.
  - destruct (float_of_int_pos_round w) as (mz & ez & -> & _ & _ & Hd & HE).
    destruct (round_aux_exact false mz ez HE) as [-> Hq].
    set (E := fexp prec emax (Zpos (digits2_pos mz) + ez)) in *.
    assert (HE970 : E <= 970).
    { assert (Zpos (digits2_pos w) <= 1023).
      { apply (Zdigits2_le (Zpos w) 1023); lia. }
      unfold E, fexp, emin, prec, emax. lia. }
    destruct (pack_cases (rne (Zpos mz) (E - ez)) E Hq)
      as [[? ->]|[(?&?& ->)|[(?&?& ->)|[(?&?& ->)|(?&?& ->)]]]];
      try (eexists; reflexivity); unfold emax, prec in *; lia.
Qed.

Lemma digits2_mono a b :
  (a <= b)%positive -> Zpos (digits2_pos a) <= Zpos (digits2_pos b).
Proof.
  intros Hab. pose proof (digits2_bounds a) as [Hlo _].
  pose proof (digits2_bounds b) as [_ Hhi].
  assert (Hlt : 2 ^ (Zpos (digits2_pos a) - 1) < 2 ^ Zpos (digits2_pos b)).
  { eapply Z.le_lt_trans; [exact Hlo|]. eapply Z.le_lt_trans; [|exact Hhi].
    apply Pos2Z.pos_le_pos. exact Hab. }
  apply Z.pow_lt_mono_r_iff in Hlt; lia.
Qed.

Lemma frac_leb_spec fa fb : frac_leb fa fb = true -> frac_le fa fb.
Proof.
  destruct fa as [[|]|[|]| |[|] ma ea], fb as [[|]|[|]| |[|] mb eb];
    cbn [frac_leb frac_le]; try discriminate; try (intros _; exact I).
  - apply Z.leb_le.
  - rewrite !andb_true_iff, !Z.leb_le. tauto.
Qed.

Lemma frac_le_trans fa fb fc : frac_le fa fb -> frac_le fb fc -> frac_le fa fc.
Proof.
  destruct fa as [[|]|[|]| |[|] ma ea], fb as [[|]|[|]| |[|] mb eb],
    fc as [[|]|[|]| |[|] mc ec]; cbn [frac_le]; try tauto.
  intros (?&?&?&?&?) (?&?&?&?&?). repeat split; try assumption. lia.
Qed.

Lemma fmul_finite_mono ma ea mb eb mw ew :
  frac_le (S754_finite false ma ea) (S754_finite false mb eb) ->
  fleb (fmul (S754_finite false ma ea) (S754_finite false mw ew))
       (fmul (S754_finite false mb eb) (S754_finite false mw ew)) = true.
Proof.
  intros (Hda & Hdb & Hea & Heb & Hle).
  unfold fmul. cbn [SFmul xorb].
  assert (Hdig : forall m, 53 <= Zpos (digits2_pos m) ->
                           53 <= Zpos (digits2_pos (m * mw))).
  { intros m Hm. etransitivity; [exact Hm|]. apply digits2_mono.
    rewrite <- (Pos.mul_1_r m) at 1. apply Pos.mul_le_mono_l. apply Pos.le_1_l. }
  apply (round_exact_mono _ _ _ _ (-62 + ew)); try lia.
  - replace (ea + ew - (-62 + ew)) with (ea + 62) by lia.
    replace (eb + ew - (-62 + ew)) with (eb + 62) by lia.
    rewrite !Pos2Z.inj_mul.
    replace (Zpos ma * Zpos mw * 2 ^ (ea + 62)) with ((Zpos ma * 2 ^ (ea + 62)) * Zpos mw) by lia.
    replace (Zpos mb * Zpos mw * 2 ^ (eb + 62)) with ((Zpos mb * 2 ^ (eb + 62)) * Zpos mw) by lia.
    apply Z.mul_le_mono_nonneg_r; lia.
  - specialize (Hdig ma Hda). unfold fexp, prec. lia.
  - specialize (Hdig mb Hdb). unfold fexp, prec. lia.
Qed.

Lemma fmul_frac_mono fa fb fw :
  frac_le fa fb ->
  match fw with S754_zero false | S754_finite false _ _ => True | _ => False end ->
  fleb (fmul fa fw) (fmul fb fw) = true.
Proof.
  intros Hab Hw.
  destruct fw as [[|]|[|]| |[|] mw ew]; try contradiction.
  - destruct fa as [[|]|[|]| |[|] ma ea], fb as [[|]|[|]| |[|] mb eb];
      cbn [frac_le] in Hab; try contradiction; reflexivity.
  - destruct fa as [[|]|[|]| |[|] ma ea], fb as [[|]|[|]| |[|] mb eb];
      cbn [frac_le] in Hab; try contradiction.
    + reflexivity.
    + unfold fmul at 1. cbn [SFmul xorb]. apply fleb_zero_l.
      unfold fmul. cbn [SFmul xorb].
      assert (HE : eb + ew <= fexp prec emax (Zpos (digits2_pos (mb * mw)) + (eb + ew))).
      { assert (53 <= Zpos (digits2_pos (mb * mw))).
        { etransitivity; [exact Hab|]. apply digits2_mono.
          rewrite <- (Pos.mul_1_r mb) at 1. apply Pos.mul_le_mono_l. apply Pos.le_1_l. }
        unfold fexp, prec. lia. }
      destruct (round_aux_exact false (mb * mw) (eb + ew) HE) as [-> Hq].
      apply pack_shape. exact Hq.
    + apply fmul_finite_mono. exact Hab.
Qed.

Lemma unit_frac_table : forallb unit_frac_ok (map Z.of_nat (seq 0 1000)) = true.
Proof. vm_compute. reflexivity. Qed.

Lemma unit_frac_step a :
  0 <= a < 1000 ->
  exists fa fb,
    int_true_div a 1000 = Return fa /\ int_true_div (a + 1) 1000 = Return fb /\
    frac_le fa fa /\ frac_le fa fb /\ frac_le fb fb.
Proof.
  intros Ha.
  pose proof unit_frac_table as H. rewrite forallb_forall in H.
  assert (Hin : In a (map Z.of_nat (seq 0 1000))).
  { apply in_map_iff. exists (Z.to_nat a). split; [lia|]. apply in_seq. lia. }
  specialize (H a Hin). unfold unit_frac_ok in H.
  destruct (int_true_div a 1000) as [fa|]; [|discriminate].
  destruct (int_true_div (a + 1) 1000) as [fb|]; [|discriminate].
  exists fa, fb. rewrite !andb_true_iff in H. destruct H as [[H1 H2] H3].
  repeat split; try reflexivity; apply frac_leb_spec; assumption.
Qed.

Lemma unit_frac_mono a b :
  0 <= a -> a <= b -> b <= 1000 ->
  exists fa fb,
    int_true_div a 1000 = Return fa /\ int_true_div b 1000 = Return fb /\
    frac_le fa fb.
Proof.
  intros Ha Hab Hb.
  remember (Z.to_nat (b - a)) as n eqn:Hn.
  revert b Hab Hb Hn. induction n as [|n IH]; intros b Hab Hb Hn.
  - assert (b = a) by lia. subst b.
    destruct (Z_lt_le_dec a 1000) as [Hlt|Hge].
    + destruct (unit_frac_step a ltac:(lia)) as (fa & fb & H1 & _ & H3 & _).
      exists fa, fa. auto.
    + assert (a = 1000) by lia. subst a.
      destruct (unit_frac_step 999 ltac:(lia)) as (fa & fb & _ & H2 & _ & _ & H5).
      exists fb, fb. auto.
  - destruct (IH (b - 1) ltac:(lia) ltac:(lia) ltac:(lia)) as (fa & fm & H1 & H2 & H3).
    destruct (unit_frac_step (b - 1) ltac:(lia)) as (fm' & fb & H4 & H5 & _ & H6 & _).
    replace (b - 1 + 1) with b in H5 by lia.
    rewrite H2 in H4. injection H4 as <-.
    exists fa, fb. repeat split; try assumption.
    eapply frac_le_trans; eassumption.
Qed.

Lemma match_here_bracket x s :
  match_here bracket_pattern (x :: s)
  = if (x =? lbracket)%N then option_map S (star_rb s) else None.
Proof. reflexivity. Qed.

Lemma match_here_bracket_nil : match_here bracket_pattern [] = None.
Proof. reflexivity. Qed.

Lemma star_rb_none s : ~ In rbracket s -> star_rb s = None.
Proof.
  induction s as [|x s IH]; intros Hn; [reflexivity|].
  cbn [star_rb]. fold star_rb. rewrite IH by (intros H; apply Hn; right; exact H).
  cbn [match_here].
  destruct (N.eqb_spec x rbracket) as [->|]; [|reflexivity].
  exfalso. apply Hn. left. reflexivity.
Qed.

Lemma star_rb_last mid post :
  ~ In rbracket post ->
  star_rb (mid ++ rbracket :: post) = Some (S (List.length mid)).
Proof.
  intros Hn. induction mid as [|x mid IH].
  - cbn [app star_rb List.length]. fold star_rb. rewrite star_rb_none by assumption.
    cbn [match_here]. rewrite N.eqb_refl. reflexivity.
  - cbn [app star_rb List.length]. fold star_rb. rewrite IH. reflexivity.
Qed.

Lemma star_rb_some s n : star_rb s = Some n -> In rbracket s.
Proof.
  revert n. induction s as [|x s IH]; intros n; [discriminate|].
  cbn [star_rb]. fold star_rb.
  destruct (star_rb s) as [k|] eqn:Hs.
  - intros _. right. eapply IH. reflexivity.
  - cbn [match_here]. destruct (N.eqb_spec x rbracket) as [->|]; [|discriminate].
    intros _. left. reflexivity.
Qed.

Lemma firstn_through {A} (mid : list A) x post :
  firstn (S (List.length mid)) (mid ++ x :: post) = mid ++ [x].
Proof.
  induction mid as [|y mid IH]; [reflexivity|].
  cbn [List.length app]. rewrite firstn_cons, IH. reflexivity.
Qed.

Lemma search_span pre mid post :
  ~ In lbracket pre -> ~ In rbracket post ->
  search bracket_pattern (pre ++ lbracket :: mid ++ rbracket :: post)
  = Some (lbracket :: mid ++ [rbracket]).
Proof.
  intros Hpre Hpost. induction pre as [|x pre IH].
  - cbn [app search]. rewrite match_here_bracket, N.eqb_refl.
    rewrite star_rb_last by assumption. cbn [option_map].
    rewrite firstn_cons, firstn_through. reflexivity.
  - cbn [app search]. rewrite match_here_bracket.
    destruct (N.eqb_spec x lbracket) as [->|Hx].
    + exfalso. apply Hpre. left. reflexivity.
    + apply IH. intros H. apply Hpre. right. exact H.
Qed.

Lemma search_none text : ~ has_span text -> search bracket_pattern text = None.
Proof.
  induction text as [|x text IH]; intros Hn; [reflexivity|].
  cbn [search]. rewrite match_here_bracket.
  assert (Htail : search bracket_pattern text = None).
  { apply IH. intros (pre & mid & post & ->). apply Hn.
    exists (x :: pre), mid, post. reflexivity. }
  destruct (N.eqb_spec x lbracket) as [->|Hx]; [|exact Htail].
  destruct (star_rb text) as [n|] eqn:Hs; [|exact Htail].
  exfalso. apply star_rb_some in Hs. apply in_split in Hs.
  destruct Hs as (mid & post & ->). apply Hn. exists [], mid, post. reflexivity.
Qed.

Lemma process_gemini_auto_unfold L img api_key model_name log :
  process_gemini_auto L img api_key model_name log =
  let log1 := asked L img api_key model_name log in
  match generate_text L log1 with
  | Raise e => (Return (None, exn_text L e), log1)
  | Return text =>
      match extract_json L text with
      | Raise e => (Return (None, exn_text L e), log1)
      | Return None =>
          (Return (None, msg_no_json ++ firstn 100 text ++ msg_ellipsis), log1)
      | Return (Some json_data) =>
          match boxes_of img json_data with
          | Raise e => (Return (None, exn_text L e), log1)
          | Return ([], _) => (Return (None, msg_none_detected), log1)
          | Return (b :: bs, _) =>
              let log2 := log1 ++ [SamPredict img (b :: bs)] in
              match sam_model L log2 with
              | Raise e => (Return (None, exn_text L e), log2)
              | Return [] => (Return (None, exn_text L IndexError), log2)
              | Return (r :: _) => (Return (Some r, msg_success model_name), log2)
              end
          end
      end
  end.
Proof.
  unfold process_gemini_auto, boxes_of, asked.
  destruct (size img) as [width height]. cbn [fst snd].
  unfold bind, emit, try_except, detect, bind, generate_content, call, lift, ret.
  destruct (generate_text L _) as [text|e]; [|reflexivity].
  destruct (extract_json L text) as [[jd|]|e]; [| reflexivity | reflexivity].
  destruct (py_iter jd) as [items|e]; [|reflexivity]. cbn [obind].
  destruct (collect width height items [] []) as [[[|b bs] labels]|e];
    [reflexivity| |reflexivity].
  unfold run_sam, call.
  destruct (sam_model L _) as [[|r rs]|e]; reflexivity.
Qed.

Lemma remote_calls_app l1 l2 :
  remote_calls (l1 ++ l2) = (remote_calls l1 + remote_calls l2)%nat.
Proof. unfold remote_calls. rewrite filter_app, length_app. reflexivity. Qed.

Lemma remote_calls_asked L img api_key model_name log :
  remote_calls (asked L img api_key model_name log) = S (remote_calls log).
Proof. unfold asked. rewrite !remote_calls_app. cbn. lia. Qed.

(** Whatever the world answers, the function returns a pair, after exactly
    one request to the remote service and at most one inference. *)
Lemma process_gemini_auto_shape L img api_key model_name log :
  exists result info rest,
    process_gemini_auto L img api_key model_name log
    = (Return (result, info), asked L img api_key model_name log ++ rest) /\
    (rest = [] \/ exists bboxes, rest = [SamPredict img bboxes] /\ bboxes <> []) /\
    (result = None \/ info = msg_success model_name).
Proof.
  rewrite process_gemini_auto_unfold. cbv zeta.
  destruct (generate_text L _) as [text|e].
  2:{ eexists _, _, []. rewrite app_nil_r. repeat split; auto. }
  destruct (extract_json L text) as [[jd|]|e].
  2,3: eexists _, _, []; rewrite app_nil_r; repeat split; auto.
  destruct (boxes_of img jd) as [[[|b bs] labels]|e].
  1,3: eexists _, _, []; rewrite app_nil_r; repeat split; auto.
  destruct (sam_model L _) as [[|r rs]|e];
    eexists _, _, [SamPredict img (b :: bs)]; (split; [reflexivity|]);
    (split; [right; exists (b :: bs); split; [reflexivity|discriminate]|]); auto.
Qed.

(** ** Claims *)

(** C5 (as amended): a response text without an opening bracket followed by
    a closing one makes the detection adapter return no result and the no-JSON
    message, which carries the first 100 characters of the response and no
    more of it; a text that has such a span which [json.loads] rejects gives
    no result either, with the text of the parser's exception as message. *)
Theorem C5_failure_messages L img api_key model_name log text :
  generate_text L (asked L img api_key model_name log) = Return text ->
  (~ has_span text ->
   process_gemini_auto L img api_key model_name log
   = (Return (None, msg_no_json ++ firstn 100 text ++ msg_ellipsis),
      asked L img api_key model_name log) /\
   (List.length (firstn 100 text) <= 100)%nat /\
   text = firstn 100 text ++ skipn 100 text) /\
  (forall span e,
      search bracket_pattern text = Some span ->
      json_loads L span = Raise e ->
      process_gemini_auto L img api_key model_name log
      = (Return (None, exn_text L e), asked L img api_key model_name log)).
Proof.
  intros Hgen. split.
  - intros Hspan.
    rewrite process_gemini_auto_unfold. cbv zeta. rewrite Hgen.
    unfold extract_json. rewrite (search_none text Hspan).
    split; [reflexivity|]. split.
    + apply firstn_le_length.
    + symmetry. apply firstn_skipn.
  - intros span e Hs Hj.
    rewrite process_gemini_auto_unfold. cbv zeta. rewrite Hgen.
    unfold extract_json. rewrite Hs, Hj. reflexivity.
Qed.

Lemma C5_witness :
  process_gemini_auto (sample_libs (lit "I cannot see any room.") [] JNull)
    (sample_image 640 480) (lit "key") (lit "models/gemini-1.5-flash") []
  = (Return (None, msg_no_json ++ firstn 100 (lit "I cannot see any room.") ++ msg_ellipsis),
     asked (sample_libs (lit "I cannot see any room.") [] JNull)
       (sample_image 640 480) (lit "key") (lit "models/gemini-1.5-flash") []) /\
  process_gemini_auto (prose_libs (lit "Sorry, [no room visible] here"))
    (sample_image 640 480) (lit "key") (lit "models/gemini-1.5-flash") []
  = (Return (None, exn_text (prose_libs (lit "Sorry, [no room visible] here"))
                     (JSONDecodeError 1)),
     asked (prose_libs (lit "Sorry, [no room visible] here"))
       (sample_image 640 480) (lit "key") (lit "models/gemini-1.5-flash") []).
Proof.
  split.
  - refine (proj1 (proj1 (C5_failure_messages
      (sample_libs (lit "I cannot see any room.") [] JNull)
      (sample_image 640 480) (lit "key") (lit "models/gemini-1.5-flash") []
      (lit "I cannot see any room.") eq_refl) _)).
    intros (pre & mid & post & H).
    assert (Hin : In lbracket (lit "I cannot see any room.")).
    { rewrite H. apply in_or_app. right. left. reflexivity. }
    vm_compute in Hin. repeat (destruct Hin as [Hin|Hin]; [discriminate Hin|]).
    exact Hin.
  - refine (proj2 (C5_failure_messages
      (prose_libs (lit "Sorry, [no room visible] here"))
      (sample_image 640 480) (lit "key") (lit "models/gemini-1.5-flash") []
      (lit "Sorry, [no room visible] here") eq_refl)
      (lit "[no room visible]") (JSONDecodeError 1) _ _); vm_compute; reflexivity.
Defined.

(** C5, counterexample: the text [Sorry, [no room visible] here] holds no
    JSON array, bracketed or not; the search still finds the span
    [[no room visible]], [json.loads] rejects it, and the message returned is
    the text of that exception, which carries no character of the response
    and is not the no-JSON message with its excerpt. *)
Lemma C5_counterexample :
  let text := lit "Sorry, [no room visible] here" in
  let L := prose_libs text in
  let img := sample_image 640 480 in
  (forall arr, json_loads L arr = Raise (JSONDecodeError 1)) /\
  generate_text L (asked L img (lit "key") (lit "models/gemini-1.5-flash") [])
  = Return text /\
  search bracket_pattern text = Some (lit "[no room visible]") /\
  process_gemini_auto L img (lit "key") (lit "models/gemini-1.5-flash") []
  = (Return (None, lit "Expecting value: line 1 column 2 (char 1)"),
     asked L img (lit "key") (lit "models/gemini-1.5-flash") []) /\
  lit "Expecting value: line 1 column 2 (char 1)"
  <> msg_no_json ++ firstn 100 text ++ msg_ellipsis.
Proof.
  cbv zeta. split; [reflexivity|]. split; [reflexivity|].
  split; [vm_compute; reflexivity|]. split; [vm_compute; reflexivity|].
  intros H. apply (f_equal (hd 0%N)) in H. vm_compute in H. discriminate H.
Qed.

(** C8: when the credential or the model selection is empty, a click on the
    run button shows the validation error and nothing else happens: the
    remote service is not called. *)
Theorem C8_missing_configuration L img api_key selected_gemini_model log :
  api_key = [] \/ selected_gemini_model = [] ->
  auto_tab L img api_key selected_gemini_model true log
  = (Return tt,
     log ++ [StWrite msg_intro; StError msg_validation]) /\
  remote_calls (snd (auto_tab L img api_key selected_gemini_model true log))
  = remote_calls log.
Proof.
  intros H.
  assert (Hrun : auto_tab L img api_key selected_gemini_model true log
                 = (Return tt,
                    log ++ [StWrite msg_intro;
                            StError msg_validation])).
  { unfold auto_tab, bind, emit.
    assert (Hc : negb (str_truthy api_key) || negb (str_truthy selected_gemini_model) = true).
    { destruct H as [-> | ->]; [reflexivity|]. apply orb_true_r. }
    rewrite Hc. rewrite <- app_assoc. reflexivity. }
  split; [exact Hrun|].
  rewrite Hrun. cbn [snd]. rewrite remote_calls_app. cbn. lia.
Qed.

Lemma C8_witness :
  auto_tab (sample_libs [] [] JNull) (sample_image 640 480) [] (lit "models/gemini-1.5-flash") true []
  = (Return tt, [StWrite msg_intro; StError msg_validation]).
Proof.
  exact (proj1 (C8_missing_configuration (sample_libs [] [] JNull) (sample_image 640 480)
                  [] (lit "models/gemini-1.5-flash") [] (or_introl eq_refl))).
Defined.

(** C3 (as amended): when no opening bracket precedes the array and no
    closing bracket follows it, the text handed to [json.loads] is exactly
    the array, from its opening to its closing bracket, whatever prose
    surrounds it. *)
Theorem C3_extracts_outermost_span L pre mid post :
  ~ In lbracket pre -> ~ In rbracket post ->
  search bracket_pattern (pre ++ (lbracket :: mid ++ [rbracket]) ++ post)
  = Some (lbracket :: mid ++ [rbracket]) /\
  extract_json L (pre ++ (lbracket :: mid ++ [rbracket]) ++ post)
  = (json_data <- json_loads L (lbracket :: mid ++ [rbracket]) ;;
     Return (Some json_data))%out.
Proof.
  intros Hpre Hpost.
  assert (Hs : search bracket_pattern (pre ++ (lbracket :: mid ++ [rbracket]) ++ post)
               = Some (lbracket :: mid ++ [rbracket])).
  { cbn [app]. rewrite <- app_assoc. cbn [app]. apply search_span; assumption. }
  split; [exact Hs|]. unfold extract_json. rewrite Hs. reflexivity.
Qed.

Lemma C3_witness :
  extract_json (sample_libs [] (lit "[]") (JList []))
    (lit "Sure! Here is the result: " ++ (lbracket :: [] ++ [rbracket]) ++ lit " (nothing found)")
  = Return (Some (JList [])).
Proof.
  refine (proj2 (C3_extracts_outermost_span (sample_libs [] (lit "[]") (JList []))
            (lit "Sure! Here is the result: ") [] (lit " (nothing found)") _ _)).
  - vm_compute. intros H. repeat (destruct H as [H|H]; [discriminate H|]). exact H.
  - vm_compute. intros H. repeat (destruct H as [H|H]; [discriminate H|]). exact H.
Defined.

(** C3, counterexample: the text [[] ]] holds exactly one bracketed JSON
    array, [[]], followed by prose; the span found runs to the last closing
    bracket, [json.loads] rejects it, and the array is not extracted. *)
Lemma C3_counterexample :
  let L := sample_libs [] (lit "[]") (JList []) in
  let text := [] ++ lit "[]" ++ lit " ]" in
  json_loads L (lit "[]") = Return (JList []) /\
  (forall pre arr post v,
      text = pre ++ arr ++ post -> json_loads L arr = Return v ->
      pre = [] /\ arr = lit "[]") /\
  search bracket_pattern text = Some (lit "[] ]") /\
  extract_json L text = Raise (JSONDecodeError 0) /\
  extract_json L text <> Return (Some (JList [])).
Proof.
  cbv zeta. split; [reflexivity|]. split.
  - intros pre arr post v Htext Hload.
    assert (Harr : arr = lit "[]").
    { cbn [json_loads sample_libs] in Hload. unfold loads_only, str_eqb in Hload.
      destruct (list_eq_dec N.eq_dec arr (lit "[]")); [assumption|discriminate]. }
    subst arr. split; [|reflexivity].
    vm_compute in Htext.
    destruct pre as [|a [|b [|c [|d pre]]]]; [reflexivity|exfalso..];
      cbn [app] in Htext; try discriminate Htext.
    injection Htext as _ _ _ _ Htext. destruct pre; discriminate Htext.
  - split; [reflexivity|]. split; [reflexivity|]. discriminate.
Qed.

Lemma auto_tab_unfold L img api_key model_name log :
  str_truthy api_key = true -> str_truthy model_name = true ->
  auto_tab L img api_key model_name true log =
  match process_gemini_auto L img api_key model_name (log ++ [StWrite msg_intro]) with
  | (Return (Some r, info), log') =>
      if nonempty r then
        (Return tt, log' ++ [StImage (Original img) (lit "元画像");
                             StImage (Rendered (plot r)) (lit "解析結果");
                             StSuccess info])
      else (Return tt, log' ++ [StError (msg_error_prefix ++ info)])
  | (Return (None, info), log') =>
      (Return tt, log' ++ [StError (msg_error_prefix ++ info)])
  | (Raise e, log') => (Raise e, log')
  end.
Proof.
  intros Hk Hm. unfold auto_tab. unfold bind at 1. unfold emit at 1.
  rewrite Hk, Hm. cbn [negb orb]. unfold bind at 1.
  destruct (process_gemini_auto L img api_key model_name _) as [[[[r|] info]|e] log'];
    try reflexivity.
  destruct (nonempty r); [|reflexivity].
  unfold bind, emit. rewrite <- !app_assoc. reflexivity.
Qed.

(** C4 (as amended): an empty parsed array makes the detection adapter
    return no result with the message [検出対象なし], without raising and
    without running the segmentation model; the message differs from every
    message of the no-JSON failure; the automatic workflow shows it with
    [st.error], prefixed like every failure. *)
Theorem C4_empty_detection L img api_key model_name log text :
  str_truthy api_key = true -> str_truthy model_name = true ->
  generate_text L (asked L img api_key model_name (log ++ [StWrite msg_intro]))
  = Return text ->
  extract_json L text = Return (Some (JList [])) ->
  process_gemini_auto L img api_key model_name (log ++ [StWrite msg_intro])
  = (Return (None, msg_none_detected),
     asked L img api_key model_name (log ++ [StWrite msg_intro])) /\
  (forall text', msg_none_detected <> msg_no_json ++ firstn 100 text' ++ msg_ellipsis) /\
  auto_tab L img api_key model_name true log
  = (Return tt,
     asked L img api_key model_name (log ++ [StWrite msg_intro])
     ++ [StError (msg_error_prefix ++ msg_none_detected)]).
Proof.
  intros Hk Hm Hgen Hjson.
  assert (Hrun : process_gemini_auto L img api_key model_name (log ++ [StWrite msg_intro])
                 = (Return (None, msg_none_detected),
                    asked L img api_key model_name (log ++ [StWrite msg_intro]))).
  { rewrite process_gemini_auto_unfold. cbv zeta. rewrite Hgen, Hjson. reflexivity. }
  split; [exact Hrun|]. split.
  - intros text' H. apply (f_equal (hd 0%N)) in H. vm_compute in H. discriminate H.
  - rewrite auto_tab_unfold by assumption. rewrite Hrun. reflexivity.
Qed.

Lemma C4_witness :
  auto_tab (sample_libs reply_empty (lit "[]") (JList []))
    (sample_image 640 480) (lit "key") (lit "models/gemini-1.5-flash") true []
  = (Return tt,
     asked (sample_libs reply_empty (lit "[]") (JList []))
       (sample_image 640 480) (lit "key") (lit "models/gemini-1.5-flash")
       ([] ++ [StWrite msg_intro])
     ++ [StError (msg_error_prefix ++ msg_none_detected)]).
Proof.
  refine (proj2 (proj2 (C4_empty_detection
    (sample_libs reply_empty (lit "[]") (JList []))
    (sample_image 640 480) (lit "key") (lit "models/gemini-1.5-flash") []
    reply_empty _ _ _ _))); vm_compute; reflexivity.
Defined.

(** C4, counterexample: on the response of the scenario, whose array is
    empty, the automatic workflow ends with an [st.error] widget showing
    [エラー: 検出対象なし]; no informational widget is shown. *)
Lemma C4_counterexample :
  let L := sample_libs reply_empty (lit "[]") (JList []) in
  let img := sample_image 640 480 in
  extract_json L reply_empty = Return (Some (JList [])) /\
  snd (auto_tab L img (lit "key") (lit "models/gemini-1.5-flash") true [])
  = [StWrite msg_intro;
     Configure (lit "key");
     GenerateContent (lit "models/gemini-1.5-flash") (prompt L) img;
     StError (lit "エラー: 検出対象なし")].
Proof. cbv zeta. split; vm_compute; reflexivity. Qed.

Lemma collect_app w h a b bs ls :
  collect w h (a ++ b) bs ls
  = ('(bs', ls') <- collect w h a bs ls ;; collect w h b bs' ls')%out.
Proof.
  revert bs ls. induction a as [|item a IH]; intros bs ls; [reflexivity|].
  cbn [app collect]. destruct (convert_item w h item) as [[bx label]|e]; [|reflexivity].
  cbn [obind]. apply IH.
Qed.

(** C7: a failed remote call, malformed JSON in the span, or an entry without
    its [box_2d] key each end the automatic path with no result and the one
    message [str(e)]; the remote service has been called exactly once. *)
Theorem C7_errors_one_message_no_retry L img api_key model_name log e :
  auto_error L img (asked L img api_key model_name log) e ->
  process_gemini_auto L img api_key model_name log
  = (Return (None, exn_text L e), asked L img api_key model_name log) /\
  remote_calls (snd (process_gemini_auto L img api_key model_name log))
  = S (remote_calls log).
Proof.
  intros Herr.
  assert (Hrun : process_gemini_auto L img api_key model_name log
                 = (Return (None, exn_text L e), asked L img api_key model_name log)).
  { rewrite process_gemini_auto_unfold. cbv zeta.
    destruct Herr as [e Hgen | text span e Hgen Hs Hj
                     | text jd good kv rest done Hgen Hx Hit Hgood Hkey].
    - rewrite Hgen. reflexivity.
    - rewrite Hgen. unfold extract_json. rewrite Hs, Hj. reflexivity.
    - rewrite Hgen, Hx. unfold boxes_of. rewrite Hit. cbn [obind].
      rewrite collect_app, Hgood. destruct done as [bs ls]. cbn [obind collect].
      unfold convert_item, pixel_box. cbn [getitem]. rewrite Hkey. reflexivity. }
  split; [exact Hrun|]. rewrite Hrun. cbn [snd]. apply remote_calls_asked.
Qed.

Lemma C7_witness :
  let img := sample_image 640 480 in
  let key := lit "key" in
  let model := lit "models/gemini-1.5-flash" in
  process_gemini_auto offline_libs img key model []
  = (Return (None, exn_text offline_libs (LibraryError 503)),
     asked offline_libs img key model []) /\
  process_gemini_auto (sample_libs (lit "[oops]") (lit "[]") (JList [])) img key model []
  = (Return (None, exn_text (sample_libs (lit "[oops]") (lit "[]") (JList []))
                     (JSONDecodeError 0)),
     asked (sample_libs (lit "[oops]") (lit "[]") (JList [])) img key model []) /\
  process_gemini_auto (sample_libs reply_no_box reply_no_box value_no_box) img key model []
  = (Return (None, exn_text (sample_libs reply_no_box reply_no_box value_no_box)
                     (KeyError (lit "box_2d"))),
     asked (sample_libs reply_no_box reply_no_box value_no_box) img key model []).
Proof.
  cbv zeta. split; [|split].
  - refine (proj1 (C7_errors_one_message_no_retry offline_libs (sample_image 640 480)
                     (lit "key") (lit "models/gemini-1.5-flash") [] (LibraryError 503) _)).
    apply remote_call_failed. reflexivity.
  - refine (proj1 (C7_errors_one_message_no_retry
                     (sample_libs (lit "[oops]") (lit "[]") (JList []))
                     (sample_image 640 480)
                     (lit "key") (lit "models/gemini-1.5-flash") [] (JSONDecodeError 0) _)).
    apply (malformed_json _ _ _ (lit "[oops]") (lit "[oops]")); vm_compute; reflexivity.
  - refine (proj1 (C7_errors_one_message_no_retry
                     (sample_libs reply_no_box reply_no_box value_no_box)
                     (sample_image 640 480)
                     (lit "key") (lit "models/gemini-1.5-flash") []
                     (KeyError (lit "box_2d")) _)).
    apply (missing_box_key _ _ _ reply_no_box value_no_box []
             [(lit "label", JStr (lit "Floor"))] [] ([], []));
      vm_compute; reflexivity.
Defined.

(** C10: whatever the remote call, [json.loads], the conversion and the
    segmentation model do, [process_gemini_auto] returns a pair and never
    raises; an exception raised under [try] becomes the pair of no result and
    its text; a result comes with the success message; and an entry without a
    [label] key is labelled [Object] instead of failing. *)
Theorem C10_never_raises L img api_key model_name log :
  (exists result info log',
      process_gemini_auto L img api_key model_name log = (Return (result, info), log') /\
      (result = None \/ info = msg_success model_name)) /\
  (forall e log',
      detect L img model_name (fst (size img)) (snd (size img)) (log ++ [Configure api_key])
      = (Raise e, log') ->
      process_gemini_auto L img api_key model_name log
      = (Return (None, exn_text L e), log')) /\
  (forall width height kv,
      lookup (lit "label") kv = None ->
      convert_item width height (JObj kv)
      = (b <- pixel_box width height (JObj kv) ;; Return (b, JStr (lit "Object")))%out).
Proof.
  split; [|split].
  - destruct (process_gemini_auto_shape L img api_key model_name log)
      as (result & info & rest & Hrun & _ & Hres).
    exists result, info, (asked L img api_key model_name log ++ rest).
    split; assumption.
  - intros e log' Hd. unfold process_gemini_auto.
    destruct (size img) as [width height]. cbn [fst snd] in Hd.
    unfold bind at 1. unfold emit at 1. unfold try_except. rewrite Hd.
    reflexivity.
  - intros width height kv Hlab. unfold convert_item.
    destruct (pixel_box width height (JObj kv)) as [b|e]; [|reflexivity].
    cbn [obind get_default]. rewrite Hlab. reflexivity.
Qed.

(** ** The manual path *)

Lemma manual_tab_unfold L img json_data log :
  manual_tab L img json_data log =
  let log0 := log ++ [StWrite msg_manual] in
  match display_size (fst (size img)) (snd (size img)) with
  | Raise e => (Raise e, log0)
  | Return (d_w, d_h) =>
      match drawn_object json_data with
      | Raise e => (Raise e, log0)
      | Return None => (Return tt, log0)
      | Return (Some obj) =>
          match canvas_box (fst (size img)) (snd (size img)) d_w d_h obj with
          | Raise e => (Raise e, log0)
          | Return b =>
              let log1 := log0 ++ [SamPredict img [b]] in
              match sam_model L log1 with
              | Raise e => (Raise e, log1)
              | Return [] => (Raise IndexError, log1)
              | Return (r :: _) =>
                  (Return tt, log1 ++ [StImage (Rendered (plot r)) caption_cutout])
              end
          end
      end
  end.
Proof.
  unfold manual_tab. destruct (size img) as [width height]. cbn [fst snd].
  unfold bind, emit, lift, ret, run_sam, call.
  destruct (display_size width height) as [[d_w d_h]|e]; [|reflexivity].
  destruct (drawn_object json_data) as [[obj|]|e]; [|reflexivity|reflexivity].
  destruct (canvas_box width height d_w d_h obj) as [b|e]; [|reflexivity].
  destruct (sam_model L _) as [[|r rs]|e]; reflexivity.
Qed.

Lemma lookup_some_nonempty k kv v : lookup k kv = Some v -> truthy (JObj kv) = true.
Proof. destruct kv; [discriminate|reflexivity]. Qed.

Lemma drawn_object_last kv earlier obj :
  lookup (lit "objects") kv = Some (JList (earlier ++ [obj])) ->
  drawn_object (JObj kv) = Return (Some obj).
Proof.
  intros Hobj. unfold drawn_object.
  rewrite (lookup_some_nonempty _ _ _ Hobj). cbn [getitem]. rewrite Hobj.
  cbn [obind]. 
  assert (Ht : truthy (JList (earlier ++ [obj])) = true).
  { destruct earlier; reflexivity. }
  rewrite Ht. cbn [getitem_last]. rewrite rev_app_distr. reflexivity.
Qed.

Lemma sam_requests_app l1 l2 : sam_requests (l1 ++ l2) = sam_requests l1 ++ sam_requests l2.
Proof. unfold sam_requests. apply flat_map_app. Qed.

(** C2 (as amended): the rectangle is mapped with one factor per axis,
    [width / d_w] and [height / d_h], where [d_w] and [d_h] are the display
    dimensions truncated to integers; the box sent to the segmentation model
    is [left * scale_x, top * scale_y, (left + width) * scale_x,
    (top + height) * scale_y]. *)
Theorem C2_canvas_box_per_axis L img json_data kv left top w h d_w d_h scale_x scale_y b log :
  display_size (fst (size img)) (snd (size img)) = Return (d_w, d_h) ->
  int_true_div (fst (size img)) d_w = Return scale_x ->
  int_true_div (snd (size img)) d_h = Return scale_y ->
  drawn_object json_data = Return (Some (JObj kv)) ->
  lookup (lit "left") kv = Some left -> lookup (lit "top") kv = Some top ->
  lookup (lit "width") kv = Some w -> lookup (lit "height") kv = Some h ->
  per_axis_box scale_x scale_y left top w h = Return b ->
  canvas_box (fst (size img)) (snd (size img)) d_w d_h (JObj kv) = Return b /\
  sam_requests (snd (manual_tab L img json_data log)) = sam_requests log ++ [[b]].
Proof.
  intros Hd Hx Hy Hobj Hl Ht Hw Hh Hb.
  assert (Hbox : canvas_box (fst (size img)) (snd (size img)) d_w d_h (JObj kv) = Return b).
  { unfold canvas_box. rewrite Hx, Hy. cbn [obind getitem].
    rewrite Hl, Ht, Hw, Hh. cbn [obind].
    unfold per_axis_box in Hb.
    destruct (mul_float left scale_x) as [x0|]; [|discriminate]. cbn [obind] in *.
    destruct (mul_float top scale_y) as [y0|]; [|discriminate]. cbn [obind] in *.
    destruct (py_add left w) as [r|]; [|discriminate]. cbn [obind] in *.
    destruct (mul_float r scale_x) as [x1|]; [|discriminate]. cbn [obind] in *.
    destruct (py_add top h) as [bt|]; [|discriminate]. cbn [obind] in *.
    destruct (mul_float bt scale_y) as [y1|]; [|discriminate]. exact Hb. }
  split; [exact Hbox|].
  rewrite manual_tab_unfold. cbv zeta. rewrite Hd, Hobj, Hbox.
  destruct (sam_model L _) as [[|r rs]|e]; cbn [snd];
    rewrite ?sam_requests_app; cbn; rewrite ?app_nil_r; reflexivity.
Qed.

(** The scenario: a 1400 x 1000 image is displayed at 700 x 500, and the
    rectangle (100, 50, 200, 100) maps to (200, 100, 600, 300). *)
Lemma C2_witness :
  (float_of_int 200 = Return f200 /\ float_of_int 100 = Return f100 /\
   float_of_int 600 = Return f600 /\ float_of_int 300 = Return f300) /\
  display_size 1400 1000 = Return (700, 500) /\
  sam_requests (snd (manual_tab (sample_libs [] [] JNull) (sample_image 1400 1000)
                       (canvas_state [rect 100 50 200 100]) []))
  = sam_requests [] ++ [[ [f200; f100; f600; f300] ]].
Proof.
  split; [repeat split; vm_compute; reflexivity|].
  split; [vm_compute; reflexivity|].
  refine (proj2 (C2_canvas_box_per_axis (sample_libs [] [] JNull) (sample_image 1400 1000)
            (canvas_state [rect 100 50 200 100])
            [(lit "type", JStr (lit "rect")); (lit "left", JInt 100); (lit "top", JInt 50);
             (lit "width", JInt 200); (lit "height", JInt 100)]
            (JInt 100) (JInt 50) (JInt 200) (JInt 100) 700 500
            (S754_finite false 4503599627370496 (-51))
            (S754_finite false 4503599627370496 (-51))
            [f200; f100; f600; f300] [] _ _ _ _ _ _ _ _ _));
    vm_compute; reflexivity.
Defined.

(** C2, counterexample: a 1400 x 1001 image is displayed at 700 x 500; the
    rectangle (100, 50, 200, 100) is mapped to (200, 100.1, 600,
    300.29999999999995), not to (200, 100, 600, 300) as division by the
    display scale 0.5 gives. *)
Lemma C2_counterexample :
  let img := sample_image 1400 1001 in
  let canvas := canvas_state [rect 100 50 200 100] in
  display_scale 1400 = Return (S754_finite false 4503599627370496 (-53)) /\
  uniform_scale_box 1400 (JInt 100) (JInt 50) (JInt 200) (JInt 100)
  = Return [f200; f100; f600; f300] /\
  sam_requests (snd (manual_tab (sample_libs [] [] JNull) img canvas []))
  = [[ [f200; f100_1; f600; f300_3] ]] /\
  [f200; f100_1; f600; f300_3] <> [f200; f100; f600; f300].
Proof.
  cbv zeta. repeat split; try (vm_compute; reflexivity). discriminate.
Qed.

Lemma canvas_box_of_fields width height d_w d_h kv left top w h scale_x scale_y b :
  int_true_div width d_w = Return scale_x ->
  int_true_div height d_h = Return scale_y ->
  lookup (lit "left") kv = Some left -> lookup (lit "top") kv = Some top ->
  lookup (lit "width") kv = Some w -> lookup (lit "height") kv = Some h ->
  per_axis_box scale_x scale_y left top w h = Return b ->
  canvas_box width height d_w d_h (JObj kv) = Return b.
Proof.
  intros Hx Hy Hl Ht Hw Hh Hb.
  unfold canvas_box. rewrite Hx, Hy. cbn [obind getitem].
  rewrite Hl, Ht, Hw, Hh. cbn [obind]. exact Hb.
Qed.

(** C9: with a non-empty object list, the object segmented is the last one:
    the box sent to the segmentation model is the box of that rectangle, built
    from its [left], [top], [width] and [height]; and the whole run is the run
    on a canvas holding that rectangle alone, so the rectangles drawn before
    it have no effect. *)
Theorem C9_last_rectangle_only L img kv earlier obj log :
  lookup (lit "objects") kv = Some (JList (earlier ++ [obj])) ->
  drawn_object (JObj kv) = Return (Some obj) /\
  (forall kv',
      lookup (lit "objects") kv' = Some (JList [obj]) ->
      manual_tab L img (JObj kv) log = manual_tab L img (JObj kv') log) /\
  (forall fields left top w h d_w d_h scale_x scale_y b,
      obj = JObj fields ->
      display_size (fst (size img)) (snd (size img)) = Return (d_w, d_h) ->
      int_true_div (fst (size img)) d_w = Return scale_x ->
      int_true_div (snd (size img)) d_h = Return scale_y ->
      lookup (lit "left") fields = Some left -> lookup (lit "top") fields = Some top ->
      lookup (lit "width") fields = Some w -> lookup (lit "height") fields = Some h ->
      per_axis_box scale_x scale_y left top w h = Return b ->
      sam_requests (snd (manual_tab L img (JObj kv) log)) = sam_requests log ++ [[b]]).
Proof.
  intros Hkv.
  pose proof (drawn_object_last kv earlier obj Hkv) as H1.
  split; [exact H1|]. split.
  - intros kv' Hkv'.
    pose proof (drawn_object_last kv' [] obj Hkv') as H2.
    rewrite !manual_tab_unfold. cbv zeta. rewrite H1, H2. reflexivity.
  - intros fields left top w h d_w d_h scale_x scale_y b -> Hd Hx Hy Hl Ht Hw Hh Hb.
    rewrite manual_tab_unfold. cbv zeta. rewrite Hd, H1.
    rewrite (canvas_box_of_fields _ _ _ _ _ _ _ _ _ _ _ _ Hx Hy Hl Ht Hw Hh Hb).
    destruct (sam_model L _) as [[|r rs]|e]; cbn [snd];
      rewrite ?sam_requests_app; cbn; rewrite ?app_nil_r; reflexivity.
Qed.

(** Three rectangles on a 1400 x 1000 image: the box sent is the box of the
    third, (200, 100, 600, 300), and the run is the run on the third alone. *)
Lemma C9_witness :
  sam_requests
    (snd (manual_tab (sample_libs [] [] JNull) (sample_image 1400 1000)
            (canvas_state ([rect 10 10 50 50; rect 300 200 80 40] ++ [rect 100 50 200 100]))
            []))
  = sam_requests [] ++ [[ [f200; f100; f600; f300] ]] /\
  manual_tab (sample_libs [] [] JNull) (sample_image 1400 1000)
    (canvas_state ([rect 10 10 50 50; rect 300 200 80 40] ++ [rect 100 50 200 100])) []
  = manual_tab (sample_libs [] [] JNull) (sample_image 1400 1000)
      (canvas_state [rect 100 50 200 100]) [].
Proof.
  assert (Hobjects :
    lookup (lit "objects")
      [(lit "version", JStr (lit "4.4.0"));
       (lit "objects",
         JList ([rect 10 10 50 50; rect 300 200 80 40] ++ [rect 100 50 200 100]))]
    = Some (JList ([rect 10 10 50 50; rect 300 200 80 40] ++ [rect 100 50 200 100])))
    by (vm_compute; reflexivity).
  split.
  - refine (proj2 (proj2 (C9_last_rectangle_only (sample_libs [] [] JNull)
                            (sample_image 1400 1000) _
                            [rect 10 10 50 50; rect 300 200 80 40] (rect 100 50 200 100) []
                            Hobjects))
              [(lit "type", JStr (lit "rect")); (lit "left", JInt 100); (lit "top", JInt 50);
               (lit "width", JInt 200); (lit "height", JInt 100)]
              (JInt 100) (JInt 50) (JInt 200) (JInt 100) 700 500
              (S754_finite false 4503599627370496 (-51))
              (S754_finite false 4503599627370496 (-51))
              [f200; f100; f600; f300] _ _ _ _ _ _ _ _ _); vm_compute; reflexivity.
  - refine (proj1 (proj2 (C9_last_rectangle_only (sample_libs [] [] JNull)
                            (sample_image 1400 1000) _
                            [rect 10 10 50 50; rect 300 200 80 40] (rect 100 50 200 100) []
                            Hobjects))
              [(lit "version", JStr (lit "4.4.0"));
               (lit "objects", JList [rect 100 50 200 100])] _).
    vm_compute; reflexivity.
Defined.


Lemma unit_frac_defined a :
  0 <= a <= 1000 -> int_true_div a 1000 = Return (unit_frac a).
Proof.
  intros [H0 H1]. destruct (unit_frac_mono a a H0 (Z.le_refl a) H1) as (fa & _ & Hfa & _ & _).
  unfold unit_frac. rewrite Hfa. reflexivity.
Qed.

Lemma to_float_defined n :
  0 <= n < 2 ^ 1023 -> float_of_int n = Return (to_float n).
Proof.
  intros Hn. destruct (float_of_int_total n Hn) as [f Hf].
  unfold to_float. rewrite Hf. reflexivity.
Qed.

Lemma scale_component_int a dim :
  0 <= a <= 1000 -> 0 <= dim < 2 ^ 1023 ->
  scale_component (JInt a) dim = Return (fmul (unit_frac a) (to_float dim)).
Proof.
  intros Ha Hd. unfold scale_component. cbn [div_int].
  rewrite (unit_frac_defined a Ha). cbn [obind]. unfold float_mul_int.
  rewrite (to_float_defined dim Hd). reflexivity.
Qed.

Lemma pixel_box_entry w h item nb :
  0 <= w < 2 ^ 1023 -> 0 <= h < 2 ^ 1023 ->
  entry_of item nb -> pixel_box w h item = Return (scaled_box w h nb).
Proof.
  intros Hw Hh. destruct nb as [[[ymin xmin] ymax] xmax].
  intros (kv & -> & Hbox & (Hy0 & Hx0 & Hy1 & Hx1)).
  unfold pixel_box. cbn [getitem]. rewrite Hbox. cbn [obind unpack4 py_iter].
  rewrite !scale_component_int by assumption. reflexivity.
Qed.

Lemma collect_entries w h items nbs bs ls :
  0 <= w < 2 ^ 1023 -> 0 <= h < 2 ^ 1023 ->
  Forall2 entry_of items nbs ->
  exists labels,
    collect w h items bs ls = Return (bs ++ map (scaled_box w h) nbs, ls ++ labels).
Proof.
  intros Hw Hh HF. revert bs ls.
  induction HF as [|item nb items nbs Hent HF IH]; intros bs ls.
  - exists []. cbn. rewrite !app_nil_r. reflexivity.
  - cbn [collect]. unfold convert_item.
    rewrite (pixel_box_entry w h item nb Hw Hh Hent). cbn [obind].
    destruct nb as [[[ymin xmin] ymax] xmax].
    destruct Hent as (kv & -> & _ & _). cbn [get_default].
    destruct (lookup (lit "label") kv) as [lab|]; cbn [obind];
      match goal with
      | |- context [collect w h items ?b ?l] =>
          destruct (IH b l) as [labels Hl]; rewrite Hl
      end; eexists (_ :: labels); rewrite <- !app_assoc; reflexivity.
Qed.

(** C1: every entry with a normalized box [[ymin, xmin, ymax, xmax]] is
    converted to [[xmin/1000*w, ymin/1000*h, xmax/1000*w, ymax/1000*h]], and
    these boxes, in the order of the entries, are what the segmentation model
    receives. *)
Theorem C1_normalized_to_pixel_boxes L img api_key model_name log text items nbs :
  0 <= fst (size img) < 2 ^ 1023 -> 0 <= snd (size img) < 2 ^ 1023 ->
  generate_text L (asked L img api_key model_name log) = Return text ->
  extract_json L text = Return (Some (JList items)) ->
  Forall2 entry_of items nbs -> nbs <> [] ->
  Forall2 (fun item nb =>
             pixel_box (fst (size img)) (snd (size img)) item
             = Return (scaled_box (fst (size img)) (snd (size img)) nb)) items nbs /\
  sam_requests (snd (process_gemini_auto L img api_key model_name log))
  = sam_requests log ++ [map (scaled_box (fst (size img)) (snd (size img))) nbs].
Proof.
  intros Hw Hh Hgen Hjson HF Hne. split.
  - clear - Hw Hh HF. induction HF; constructor; [|assumption].
    apply pixel_box_entry; assumption.
  - rewrite process_gemini_auto_unfold. cbv zeta. rewrite Hgen, Hjson.
    unfold boxes_of. cbn [py_iter obind].
    destruct (collect_entries _ _ items nbs [] [] Hw Hh HF) as [labels Hc].
    rewrite Hc. cbn [app].
    destruct (map (scaled_box (fst (size img)) (snd (size img))) nbs) as [|b bs] eqn:Hm.
    { destruct nbs; [contradiction Hne; reflexivity|discriminate Hm]. }
    assert (Hlog : sam_requests (asked L img api_key model_name log) = sam_requests log).
    { unfold asked. rewrite !sam_requests_app. cbn. rewrite !app_nil_r. reflexivity. }
    destruct (sam_model L _) as [[|r rs]|e]; cbn [snd];
      rewrite sam_requests_app, Hlog; reflexivity.
Qed.

(** The scenario: on a 2000 x 1000 image the reply above gives the pixel box
    (0, 700, 2000, 1000). *)
Lemma C1_witness :
  (float_of_int 0 = Return f0 /\ float_of_int 700 = Return f700 /\
   float_of_int 2000 = Return f2000 /\ float_of_int 1000 = Return f1000) /\
  scaled_box 2000 1000 (700, 0, 1000, 1000) = [f0; f700; f2000; f1000] /\
  sam_requests (snd (process_gemini_auto (sample_libs reply_floor reply_floor value_floor)
                       (sample_image 2000 1000) (lit "key") (lit "models/gemini-1.5-flash") []))
  = sam_requests [] ++ [map (scaled_box (fst (size (sample_image 2000 1000)))
                                         (snd (size (sample_image 2000 1000))))
                            [(700, 0, 1000, 1000)]].
Proof.
  split; [repeat split; vm_compute; reflexivity|].
  split; [vm_compute; reflexivity|].
  refine (proj2 (C1_normalized_to_pixel_boxes
            (sample_libs reply_floor reply_floor value_floor)
            (sample_image 2000 1000) (lit "key") (lit "models/gemini-1.5-flash") []
            reply_floor
            [JObj [(lit "label", JStr (lit "Floor"));
                   (lit "box_2d", JList [JInt 700; JInt 0; JInt 1000; JInt 1000])]]
            [(700, 0, 1000, 1000)] _ _ _ _ _ _)).
  - cbn. split; [lia|reflexivity].
  - cbn. split; [lia|reflexivity].
  - vm_compute; reflexivity.
  - vm_compute; reflexivity.
  - constructor; [|constructor].
    eexists. split; [reflexivity|]. split; [vm_compute; reflexivity|].
    cbn. lia.
  - discriminate.
Defined.

(** C6: for a well-formed box with integer components between 0 and 1000
    and a non-negative image size, the pixel box, when the conversion gives
    one, has [xmin_px <= xmax_px] and [ymin_px <= ymax_px]; it gives one for
    every size below [2^1023]. *)
Theorem C6_pixel_box_ordered w h kv ymin xmin ymax xmax :
  0 <= w -> 0 <= h ->
  0 <= xmin -> xmin <= xmax -> xmax <= 1000 ->
  0 <= ymin -> ymin <= ymax -> ymax <= 1000 ->
  lookup (lit "box_2d") kv = Some (JList [JInt ymin; JInt xmin; JInt ymax; JInt xmax]) ->
  (forall b, pixel_box w h (JObj kv) = Return b ->
             exists x0 y0 x1 y1,
               b = [x0; y0; x1; y1] /\ fleb x0 x1 = true /\ fleb y0 y1 = true) /\
  (w < 2 ^ 1023 -> h < 2 ^ 1023 -> exists b, pixel_box w h (JObj kv) = Return b).
Proof.
  intros Hw Hh Hx0 Hx Hx1 Hy0 Hy Hy1 Hbox. split.
  - intros b. unfold pixel_box. cbn [getitem]. rewrite Hbox.
    cbn [obind unpack4 py_iter]. unfold scale_component. cbn [div_int].
    destruct (unit_frac_mono xmin xmax Hx0 Hx Hx1) as (qx0 & qx1 & -> & -> & Hqx).
    destruct (unit_frac_mono ymin ymax Hy0 Hy Hy1) as (qy0 & qy1 & -> & -> & Hqy).
    cbn [obind]. unfold float_mul_int.
    destruct (float_of_int w) as [wf|] eqn:Hwf; [|discriminate]. cbn [obind].
    destruct (float_of_int h) as [hf|] eqn:Hhf; [|discriminate]. cbn [obind].
    intros [= <-]. eexists _, _, _, _. split; [reflexivity|].
    split; apply fmul_frac_mono; try assumption.
    + pose proof (float_of_int_shape w wf Hw Hwf) as Hs.
      destruct wf as [[|]|[|]| |[|] ? ?]; try contradiction; exact I.
    + pose proof (float_of_int_shape h hf Hh Hhf) as Hs.
      destruct hf as [[|]|[|]| |[|] ? ?]; try contradiction; exact I.
  - intros Hw' Hh'. eexists.
    apply (pixel_box_entry w h (JObj kv) (ymin, xmin, ymax, xmax)); try lia.
    exists kv. split; [reflexivity|]. split; [exact Hbox|]. cbn. lia.
Qed.

Lemma C6_witness :
  exists x0 y0 x1 y1,
    scaled_box 1920 1080 (250, 100, 900, 640) = [x0; y0; x1; y1] /\
    fleb x0 x1 = true /\ fleb y0 y1 = true.
Proof.
  refine (proj1 (C6_pixel_box_ordered 1920 1080
            [(lit "label", JStr (lit "Wall"));
             (lit "box_2d", JList [JInt 250; JInt 100; JInt 900; JInt 640])]
            250 100 900 640 _ _ _ _ _ _ _ _ _) _ _); try lia.
  - vm_compute; reflexivity.
  - vm_compute; reflexivity.
Defined.

(* ================================================================== *)
(** * Further properties of the script *)

(** ** More on the regular expression *)

Lemma star_rb_none_inv s : star_rb s = None -> ~ In rbracket s.
Proof.
  induction s as [|x s IH]; [intros _ []|].
  cbn [star_rb]. fold star_rb.
  destruct (star_rb s) as [n|]; [discriminate|].
  cbn [match_here]. destruct (N.eqb_spec x rbracket) as [->|Hx]; [discriminate|].
  intros _ [H|H]; [congruence|]. exact (IH eq_refl H).
Qed.

Lemma star_rb_some_split s n :
  star_rb s = Some n ->
  exists mid post,
    s = mid ++ rbracket :: post /\ ~ In rbracket post /\ n = S (List.length mid).
Proof.
  revert n. induction s as [|x s IH]; intros n; [discriminate|].
  cbn [star_rb]. fold star_rb.
  destruct (star_rb s) as [k|] eqn:Hs.
  - intros [= <-]. destruct (IH k eq_refl) as (mid & post & -> & Hpost & ->).
    exists (x :: mid), post. repeat split; assumption.
  - cbn [match_here]. destruct (N.eqb_spec x rbracket) as [->|Hx]; [|discriminate].
    intros [= <-]. exists [], s. repeat split.
    apply star_rb_none_inv. exact Hs.
Qed.

(** X1: whenever the search succeeds, the span it returns starts at the first
    opening bracket of the text and ends at its last closing bracket. *)
Theorem search_first_to_last text span :
  search bracket_pattern text = Some span ->
  exists pre mid post,
    text = pre ++ span ++ post /\
    span = lbracket :: mid ++ [rbracket] /\
    ~ In lbracket pre /\ ~ In rbracket post.
Proof.
  revert span. induction text as [|x text IH]; intros span; [discriminate|].
  cbn [search]. rewrite match_here_bracket.
  destruct (N.eqb_spec x lbracket) as [->|Hx].
  - destruct (star_rb text) as [n|] eqn:Hs.
    + cbn [option_map]. intros [= <-].
      destruct (star_rb_some_split text n Hs) as (mid & post & -> & Hpost & ->).
      exists [], mid, post. rewrite firstn_through.
      repeat split; try assumption.
      * cbn [app]. rewrite <- app_assoc. reflexivity.
      * intros [].
    + cbn [option_map]. intros Hrec. exfalso.
      destruct (IH span Hrec) as (pre & mid & post & Ht & Hsp & _ & _).
      apply (star_rb_none_inv text Hs). rewrite Ht, Hsp.
      apply in_or_app. right. apply in_or_app. left.
      right. apply in_or_app. right. left. reflexivity.
  - intros Hrec. destruct (IH span Hrec) as (pre & mid & post & -> & Hsp & Hpre & Hpost).
    exists (x :: pre), mid, post. repeat split; try assumption.
    intros [H|H]; [congruence|exact (Hpre H)].
Qed.

Lemma search_first_to_last_witness :
  exists pre mid post,
    lit "see [1] and [2]." = pre ++ lit "[1] and [2]" ++ post /\
    lit "[1] and [2]" = lbracket :: mid ++ [rbracket] /\
    ~ In lbracket pre /\ ~ In rbracket post.
Proof.
  apply (search_first_to_last (lit "see [1] and [2].") (lit "[1] and [2]")).
  vm_compute. reflexivity.
Defined.

(** X2: the search finds a span exactly when the text has an opening bracket
    with a closing bracket somewhere after it. *)
Theorem search_succeeds_iff text :
  (exists span, search bracket_pattern text = Some span) <-> has_span text.
Proof.
  split.
  - intros [span Hs]. revert span Hs. induction text as [|x text IH]; intros span.
    + discriminate.
    + cbn [search]. rewrite match_here_bracket.
      assert (Hrec : forall sp, search bracket_pattern text = Some sp -> has_span (x :: text)).
      { intros sp Hsp. destruct (IH sp Hsp) as (pre & mid & post & ->).
        exists (x :: pre), mid, post. reflexivity. }
      destruct (N.eqb_spec x lbracket) as [->|Hx]; [|apply Hrec].
      destruct (star_rb text) as [n|] eqn:Hst; [|apply Hrec].
      intros _. apply star_rb_some in Hst. apply in_split in Hst.
      destruct Hst as (mid & post & ->). exists [], mid, post. reflexivity.
  - intros Hspan. destruct (search bracket_pattern text) as [span|] eqn:Hs.
    + exists span. reflexivity.
    + exfalso. revert Hspan Hs. induction text as [|x text IH].
      * intros (pre & mid & post & H) _. destruct pre; discriminate H.
      * intros (pre & mid & post & H). cbn [search]. rewrite match_here_bracket.
        destruct pre as [|y pre].
        -- injection H as -> ->. rewrite N.eqb_refl.
           destruct (star_rb (mid ++ rbracket :: post)) as [n|] eqn:Hst; [discriminate|].
           exfalso. apply (star_rb_none_inv _ Hst).
           apply in_or_app. right. left. reflexivity.
        -- injection H as -> ->.
           assert (Hrec : has_span (pre ++ lbracket :: mid ++ rbracket :: post))
             by (exists pre, mid, post; reflexivity).
           destruct (y =? lbracket)%N.
           ++ destruct (star_rb _); [discriminate|]. exact (IH Hrec).
           ++ exact (IH Hrec).
Qed.

Lemma convert_item_label w h item :
  convert_item w h item = (b <- pixel_box w h item ;; Return (b, label_of item))%out.
Proof.
  unfold convert_item. destruct (pixel_box w h item) as [b|e] eqn:Hb; [|reflexivity].
  cbn [obind]. destruct item; try (unfold pixel_box in Hb; cbn in Hb; discriminate Hb).
  cbn [get_default label_of]. destruct (lookup (lit "label") kv); reflexivity.
Qed.

Lemma collect_as_map_acc w h items bs ls :
  collect w h items bs ls
  = (boxes <- map_outcome (pixel_box w h) items ;;
     Return (bs ++ boxes, ls ++ map label_of items))%out.
Proof.
  revert bs ls. induction items as [|item items IH]; intros bs ls.
  - cbn. rewrite !app_nil_r. reflexivity.
  - cbn [collect map_outcome map]. rewrite convert_item_label.
    destruct (pixel_box w h item) as [b|e]; [|reflexivity]. cbn [obind].
    rewrite IH. destruct (map_outcome (pixel_box w h) items) as [boxes|e]; [|reflexivity].
    cbn [obind]. rewrite <- !app_assoc. reflexivity.
Qed.

Lemma map_outcome_length {A B} (f : A -> outcome B) l bs :
  map_outcome f l = Return bs -> List.length bs = List.length l.
Proof.
  revert bs. induction l as [|a l IH]; intros bs; cbn [map_outcome].
  - intros [= <-]. reflexivity.
  - destruct (f a); [|discriminate]. cbn [obind].
    destruct (map_outcome f l) as [r|]; [|discriminate]. cbn [obind].
    intros [= <-]. cbn. f_equal. apply IH. reflexivity.
Qed.

(** X3: the loop with its two accumulators computes the boxes of the entries
    in order and stops at the first entry whose box cannot be built; the
    labels have no part in the boxes or in the failure; when it ends normally
    there is one box and one label per entry. *)
Theorem collect_as_map w h items :
  collect w h items [] []
  = (boxes <- map_outcome (pixel_box w h) items ;;
     Return (boxes, map label_of items))%out /\
  (forall bboxes labels,
      collect w h items [] [] = Return (bboxes, labels) ->
      List.length bboxes = List.length items /\ List.length labels = List.length items).
Proof.
  pose proof (collect_as_map_acc w h items [] []) as Hc. cbn [app] in Hc.
  split; [exact Hc|].
  intros bboxes labels. rewrite Hc.
  destruct (map_outcome (pixel_box w h) items) as [boxes|e] eqn:Hm; [|discriminate].
  cbn [obind]. intros [= <- <-]. split.
  - apply (map_outcome_length _ _ _ Hm).
  - apply length_map.
Qed.

(** X4: when the segmentation model is called from the automatic path, it
    receives exactly one box per entry of the parsed array. *)
Theorem one_box_per_entry L img api_key model_name log text items bboxes :
  generate_text L (asked L img api_key model_name log) = Return text ->
  extract_json L text = Return (Some (JList items)) ->
  In (SamPredict img bboxes)
     (skipn (List.length log) (snd (process_gemini_auto L img api_key model_name log))) ->
  List.length bboxes = List.length items /\
  map_outcome (pixel_box (fst (size img)) (snd (size img))) items = Return bboxes.
Proof.
  intros Hgen Hjson. rewrite process_gemini_auto_unfold. cbv zeta.
  rewrite Hgen, Hjson. unfold boxes_of. cbn [py_iter obind].
  rewrite (collect_as_map_acc _ _ items [] []). cbn [app].
  assert (Hskip : forall rest,
             skipn (List.length log) (asked L img api_key model_name log ++ rest)
             = [Configure api_key; GenerateContent model_name (prompt L) img] ++ rest).
  { intros rest. unfold asked. rewrite <- !app_assoc.
    rewrite skipn_app, skipn_all, Nat.sub_diag. reflexivity. }
  destruct (map_outcome _ items) as [boxes|e] eqn:Hm; cbn [obind].
  2:{ cbn [snd]. rewrite <- (app_nil_r (asked _ _ _ _ _)), Hskip.
      intros [H|[H|[]]]; discriminate H. }
  destruct boxes as [|b bs].
  { cbn [snd]. rewrite <- (app_nil_r (asked _ _ _ _ _)), Hskip.
    intros [H|[H|[]]]; discriminate H. }
  intros Hin.
  assert (Hb : bboxes = b :: bs).
  { destruct (sam_model L _) as [[|r rs]|e]; cbn [snd] in Hin; rewrite Hskip in Hin;
      destruct Hin as [H|[H|[H|[]]]]; try discriminate H; injection H as <-; reflexivity. }
  subst bboxes. split; [|reflexivity].
  apply (map_outcome_length _ _ _ Hm).
Qed.

Lemma one_box_per_entry_witness :
  List.length [[f0; f700; f2000; f1000]] = 1%nat /\
  map_outcome (pixel_box 2000 1000)
    [JObj [(lit "label", JStr (lit "Floor"));
           (lit "box_2d", JList [JInt 700; JInt 0; JInt 1000; JInt 1000])]]
  = Return [[f0; f700; f2000; f1000]].
Proof.
  refine (one_box_per_entry (sample_libs reply_floor reply_floor value_floor)
            (sample_image 2000 1000) (lit "key") (lit "models/gemini-1.5-flash") []
            reply_floor
            [JObj [(lit "label", JStr (lit "Floor"));
                   (lit "box_2d", JList [JInt 700; JInt 0; JInt 1000; JInt 1000])]]
            [[f0; f700; f2000; f1000]] _ _ _).
  - vm_compute; reflexivity.
  - vm_compute; reflexivity.
  - vm_compute. right. right. left. reflexivity.
Defined.

(** X5: when the box of some entry cannot be built, the automatic path
    returns no result and the text of the exception of the first such entry;
    the segmentation model is not run, whatever the other entries are. *)
Theorem first_bad_entry_decides L img api_key model_name log text json_data good bad rest boxes e :
  generate_text L (asked L img api_key model_name log) = Return text ->
  extract_json L text = Return (Some json_data) ->
  py_iter json_data = Return (good ++ bad :: rest) ->
  map_outcome (pixel_box (fst (size img)) (snd (size img))) good = Return boxes ->
  pixel_box (fst (size img)) (snd (size img)) bad = Raise e ->
  process_gemini_auto L img api_key model_name log
  = (Return (None, exn_text L e), asked L img api_key model_name log) /\
  sam_requests (snd (process_gemini_auto L img api_key model_name log)) = sam_requests log.
Proof.
  intros Hgen Hjson Hit Hgood Hbad.
  assert (Hrun : process_gemini_auto L img api_key model_name log
                 = (Return (None, exn_text L e), asked L img api_key model_name log)).
  { rewrite process_gemini_auto_unfold. cbv zeta. rewrite Hgen, Hjson.
    unfold boxes_of. rewrite Hit. cbn [obind].
    rewrite collect_app, (collect_as_map_acc _ _ good [] []), Hgood. cbn [obind collect app].
    rewrite convert_item_label, Hbad. reflexivity. }
  split; [exact Hrun|]. rewrite Hrun. cbn [snd]. unfold asked.
  rewrite !sam_requests_app. cbn. rewrite !app_nil_r. reflexivity.
Qed.

Lemma first_bad_entry_decides_witness :
  process_gemini_auto (sample_libs reply_short_box reply_short_box value_short_box)
    (sample_image 640 480) (lit "key") (lit "models/gemini-1.5-flash") []
  = (Return (None, exn_text (sample_libs reply_short_box reply_short_box value_short_box)
                     ValueError),
     asked (sample_libs reply_short_box reply_short_box value_short_box)
       (sample_image 640 480) (lit "key") (lit "models/gemini-1.5-flash") []).
Proof.
  refine (proj1 (first_bad_entry_decides
            (sample_libs reply_short_box reply_short_box value_short_box)
            (sample_image 640 480) (lit "key") (lit "models/gemini-1.5-flash") []
            reply_short_box value_short_box []
            (JObj [(lit "box_2d", JList [JInt 1; JInt 2; JInt 3])]) [] [] ValueError
            _ _ _ _ _)); vm_compute; reflexivity.
Defined.

(** X6: a [box_2d] that does not have exactly four components makes the
    conversion of its entry raise [ValueError]. *)
Theorem box_of_wrong_arity w h kv l :
  lookup (lit "box_2d") kv = Some (JList l) ->
  List.length l <> 4%nat ->
  pixel_box w h (JObj kv) = Raise ValueError.
Proof.
  intros Hbox Hlen. unfold pixel_box. cbn [getitem]. rewrite Hbox.
  cbn [obind unpack4 py_iter].
  destruct l as [|a [|b [|c [|d [|x l]]]]]; try reflexivity.
  exfalso. apply Hlen. reflexivity.
Qed.

Lemma box_of_wrong_arity_witness :
  pixel_box 640 480 (JObj [(lit "box_2d", JList [JInt 1; JInt 2; JInt 3])])
  = Raise ValueError.
Proof.
  refine (box_of_wrong_arity 640 480 [(lit "box_2d", JList [JInt 1; JInt 2; JInt 3])]
            [JInt 1; JInt 2; JInt 3] _ _).
  - vm_compute; reflexivity.
  - cbn. lia.
Defined.

(** X7: when every box is built and the segmentation model answers with at
    least one result, the automatic path returns the first result and the
    success message naming the model.  The workflow then tests [if result:]:
    for a result that is true it shows the original image, the rendering of
    that result and the success message; for one that is false it shows
    [st.error] with the success message behind the error prefix. *)
Theorem success_shows_first_result L img api_key model_name log text json_data b bs labels r rs :
  str_truthy api_key = true -> str_truthy model_name = true ->
  generate_text L (asked L img api_key model_name (log ++ [StWrite msg_intro]))
  = Return text ->
  extract_json L text = Return (Some json_data) ->
  boxes_of img json_data = Return (b :: bs, labels) ->
  sam_model L (asked L img api_key model_name (log ++ [StWrite msg_intro])
               ++ [SamPredict img (b :: bs)]) = Return (r :: rs) ->
  process_gemini_auto L img api_key model_name (log ++ [StWrite msg_intro])
  = (Return (Some r, msg_success model_name),
     asked L img api_key model_name (log ++ [StWrite msg_intro])
     ++ [SamPredict img (b :: bs)]) /\
  auto_tab L img api_key model_name true log
  = (Return tt,
     (asked L img api_key model_name (log ++ [StWrite msg_intro])
      ++ [SamPredict img (b :: bs)])
     ++ (if nonempty r then
           [StImage (Original img) (lit "元画像");
            StImage (Rendered (plot r)) (lit "解析結果");
            StSuccess (msg_success model_name)]
         else [StError (msg_error_prefix ++ msg_success model_name)])).
Proof.
  intros Hk Hm Hgen Hjson Hboxes Hsam.
  assert (Hrun : process_gemini_auto L img api_key model_name (log ++ [StWrite msg_intro])
                 = (Return (Some r, msg_success model_name),
                    asked L img api_key model_name (log ++ [StWrite msg_intro])
                    ++ [SamPredict img (b :: bs)])).
  { rewrite process_gemini_auto_unfold. cbv zeta.
    rewrite Hgen, Hjson, Hboxes, Hsam. reflexivity. }
  split; [exact Hrun|].
  rewrite auto_tab_unfold by assumption. rewrite Hrun.
  destruct (nonempty r); reflexivity.
Qed.

(** A true result, then a false one. *)
Lemma success_shows_first_result_witness :
  let L := sample_libs reply_floor reply_floor value_floor in
  let img := sample_image 2000 1000 in
  auto_tab L img (lit "key") (lit "models/gemini-1.5-flash") true []
  = (Return tt,
     (asked L img (lit "key") (lit "models/gemini-1.5-flash") ([] ++ [StWrite msg_intro])
      ++ [SamPredict img ([f0; f700; f2000; f1000] :: [])])
     ++ (if nonempty {| plot := 1; nonempty := true |} then
           [StImage (Original img) (lit "元画像");
            StImage (Rendered (plot {| plot := 1; nonempty := true |})) (lit "解析結果");
            StSuccess (msg_success (lit "models/gemini-1.5-flash"))]
         else [StError (msg_error_prefix ++ msg_success (lit "models/gemini-1.5-flash"))])) /\
  snd (auto_tab (empty_result_libs) img (lit "key") (lit "models/gemini-1.5-flash") true [])
  = (asked empty_result_libs img (lit "key") (lit "models/gemini-1.5-flash")
       ([] ++ [StWrite msg_intro])
     ++ [SamPredict img ([f0; f700; f2000; f1000] :: [])])
    ++ [StError (lit "エラー: 成功 (Model: models/gemini-1.5-flash)")].
Proof.
  cbv zeta. split.
  - refine (proj2 (success_shows_first_result
              (sample_libs reply_floor reply_floor value_floor) (sample_image 2000 1000)
              (lit "key") (lit "models/gemini-1.5-flash") [] reply_floor value_floor
              [f0; f700; f2000; f1000] [] [JStr (lit "Floor")]
              {| plot := 1; nonempty := true |} [] _ _ _ _ _ _));
      vm_compute; reflexivity.
  - rewrite (proj2 (success_shows_first_result
              empty_result_libs (sample_image 2000 1000)
              (lit "key") (lit "models/gemini-1.5-flash") [] reply_floor value_floor
              [f0; f700; f2000; f1000] [] [JStr (lit "Floor")]
              {| plot := 2; nonempty := false |} []
              ltac:(vm_compute; reflexivity) ltac:(vm_compute; reflexivity)
              ltac:(vm_compute; reflexivity) ltac:(vm_compute; reflexivity)
              ltac:(vm_compute; reflexivity) ltac:(vm_compute; reflexivity))).
    vm_compute. reflexivity.
Defined.

(** X8: when the segmentation model answers with an empty list, [results[0]]
    raises [IndexError], which is caught: the automatic path returns no result
    and the text of that exception, after one request and one inference. *)
Theorem empty_inference_is_caught L img api_key model_name log text json_data b bs labels :
  generate_text L (asked L img api_key model_name log) = Return text ->
  extract_json L text = Return (Some json_data) ->
  boxes_of img json_data = Return (b :: bs, labels) ->
  sam_model L (asked L img api_key model_name log ++ [SamPredict img (b :: bs)])
  = Return [] ->
  process_gemini_auto L img api_key model_name log
  = (Return (None, exn_text L IndexError),
     asked L img api_key model_name log ++ [SamPredict img (b :: bs)]).
Proof.
  intros Hgen Hjson Hboxes Hsam.
  rewrite process_gemini_auto_unfold. cbv zeta.
  rewrite Hgen, Hjson, Hboxes, Hsam. reflexivity.
Qed.

Lemma empty_inference_is_caught_witness :
  process_gemini_auto no_result_libs (sample_image 2000 1000) (lit "key")
    (lit "models/gemini-1.5-flash") []
  = (Return (None, exn_text no_result_libs IndexError),
     asked no_result_libs (sample_image 2000 1000) (lit "key")
       (lit "models/gemini-1.5-flash") []
     ++ [SamPredict (sample_image 2000 1000) ([f0; f700; f2000; f1000] :: [])]).
Proof.
  refine (empty_inference_is_caught no_result_libs (sample_image 2000 1000) (lit "key")
            (lit "models/gemini-1.5-flash") [] reply_floor value_floor
            [f0; f700; f2000; f1000] [] [JStr (lit "Floor")] _ _ _ _);
    vm_compute; reflexivity.
Defined.

Lemma manual_tab_events L img json_data log :
  exists o rest,
    manual_tab L img json_data log = (o, log ++ StWrite msg_manual :: rest) /\
    (rest = [] \/
     (exists b, rest = [SamPredict img [b]]) \/
     (exists b r, rest = [SamPredict img [b]; StImage (Rendered (plot r)) caption_cutout])).
Proof.
  rewrite manual_tab_unfold. cbv zeta.
  destruct (display_size _ _) as [[d_w d_h]|e];
    [destruct (drawn_object json_data) as [[obj|]|e];
     [destruct (canvas_box _ _ d_w d_h obj) as [b|e];
      [destruct (sam_model L _) as [[|r rs]|e]|]| |]|];
    rewrite <- ?app_assoc; cbn [app]; eexists _, _; (split; [reflexivity|]); eauto.
Qed.

(** X9: the manual path never configures or calls the remote service, and
    runs the segmentation model at most once, whatever the canvas holds. *)
Theorem manual_path_is_local L img json_data log :
  remote_calls (snd (manual_tab L img json_data log)) = remote_calls log /\
  filter is_configure (snd (manual_tab L img json_data log)) = filter is_configure log /\
  (List.length (sam_requests (snd (manual_tab L img json_data log)))
   <= S (List.length (sam_requests log)))%nat.
Proof.
  destruct (manual_tab_events L img json_data log) as (o & rest & -> & Hrest).
  cbn [snd]. unfold remote_calls.
  rewrite !filter_app, sam_requests_app, !length_app.
  destruct Hrest as [->|[(b & ->)|(b & r & ->)]]; cbn; rewrite ?app_nil_r;
    repeat split; lia.
Qed.

(** X10: while nothing is drawn (the canvas reports [None], or an empty
    object list), the manual path only writes its heading: no inference. *)
Theorem nothing_drawn_no_inference L img json_data d_w d_h log :
  display_size (fst (size img)) (snd (size img)) = Return (d_w, d_h) ->
  json_data = JNull \/
  (exists kv, json_data = JObj kv /\ lookup (lit "objects") kv = Some (JList [])) ->
  manual_tab L img json_data log = (Return tt, log ++ [StWrite msg_manual]).
Proof.
  intros Hd Hj. rewrite manual_tab_unfold. cbv zeta. rewrite Hd.
  assert (Hnone : drawn_object json_data = Return None).
  { destruct Hj as [->|(kv & -> & Hobj)]; [reflexivity|].
    unfold drawn_object. rewrite (lookup_some_nonempty _ _ _ Hobj).
    cbn [getitem]. rewrite Hobj. reflexivity. }
  rewrite Hnone. reflexivity.
Qed.

Lemma nothing_drawn_no_inference_witness :
  manual_tab (sample_libs [] [] JNull) (sample_image 1400 1000) (canvas_state []) []
  = (Return tt, [] ++ [StWrite msg_manual]).
Proof.
  refine (nothing_drawn_no_inference (sample_libs [] [] JNull) (sample_image 1400 1000)
            (canvas_state []) 700 500 [] _ _).
  - vm_compute; reflexivity.
  - right. eexists. split; [reflexivity|]. vm_compute; reflexivity.
Defined.

(** X11: when the display height truncates to zero and a rectangle is drawn,
    [height / d_h] raises [ZeroDivisionError]; nothing catches it in the
    manual path, so the run of the script ends with that exception, before
    the segmentation model is called. *)
Theorem flat_image_divides_by_zero L img json_data obj d_w scale_x log :
  display_size (fst (size img)) (snd (size img)) = Return (d_w, 0) ->
  int_true_div (fst (size img)) d_w = Return scale_x ->
  drawn_object json_data = Return (Some obj) ->
  manual_tab L img json_data log = (Raise ZeroDivisionError, log ++ [StWrite msg_manual]).
Proof.
  intros Hd Hx Hobj. rewrite manual_tab_unfold. cbv zeta. rewrite Hd, Hobj.
  unfold canvas_box. rewrite Hx. cbn [obind int_true_div]. reflexivity.
Qed.

Lemma flat_image_divides_by_zero_witness :
  manual_tab (sample_libs [] [] JNull) (sample_image 1400 1)
    (canvas_state [rect 100 0 200 1]) []
  = (Raise ZeroDivisionError, [] ++ [StWrite msg_manual]).
Proof.
  refine (flat_image_divides_by_zero (sample_libs [] [] JNull) (sample_image 1400 1)
            (canvas_state [rect 100 0 200 1]) (rect 100 0 200 1) 700
            (S754_finite false 4503599627370496 (-51)) [] _ _ _);
    vm_compute; reflexivity.
Defined.

Lemma starts_with_spec p s :
  starts_with p s = true <-> exists post, s = p ++ post.
Proof.
  revert s. induction p as [|a p IH]; intros s.
  - split; [intros _; exists s; reflexivity|reflexivity].
  - destruct s as [|b s]; cbn [starts_with].
    + split; [discriminate|intros [post H]; discriminate H].
    + rewrite andb_true_iff, N.eqb_eq, IH. split.
      * intros [-> [post ->]]. exists post. reflexivity.
      * intros [post H]. injection H as -> ->. split; [reflexivity|]. exists post. reflexivity.
Qed.

(** X12: the substring test used on model names holds exactly when the name
    is some prefix, then the needle, then some suffix. *)
Theorem contains_spec needle hay :
  contains needle hay = true <-> exists pre post, hay = pre ++ needle ++ post.
Proof.
  induction hay as [|c hay IH].
  - cbn [contains]. rewrite orb_false_r, starts_with_spec. split.
    + intros [post H]. exists [], post. exact H.
    + intros (pre & post & H). destruct pre; [exists post; exact H|discriminate H].
  - cbn [contains]. rewrite orb_true_iff, starts_with_spec, IH. split.
    + intros [[post H]|(pre & post & H)].
      * exists [], post. exact H.
      * exists (c :: pre), post. rewrite H. reflexivity.
    + intros (pre & post & H). destruct pre as [|x pre].
      * left. exists post. exact H.
      * right. injection H as -> ->. exists pre, post. reflexivity.
Qed.

Lemma scan_default_spec names i d :
  (exists before model_name after,
      names = before ++ model_name :: after /\
      is_flash_15 model_name = true /\
      (forall n, In n before -> is_flash_15 n = false) /\
      scan_default names i d = (i + List.length before)%nat) \/
  ((forall n, In n names -> is_flash_15 n = false) /\ scan_default names i d = d).
Proof.
  revert i. induction names as [|n names IH]; intros i.
  - right. split; [intros ? []|reflexivity].
  - cbn [scan_default]. destruct (is_flash_15 n) eqn:Hn.
    + left. exists [], n, names. repeat split; try assumption.
      * intros ? [].
      * cbn. lia.
    + destruct (IH (S i)) as [(before & m & after & -> & Hm & Hb & Hs)|[Hall Hs]].
      * left. exists (n :: before), m, after. repeat split; try assumption.
        -- intros x [<-|Hx]; [assumption|apply Hb; assumption].
        -- rewrite Hs. cbn. lia.
      * right. split; [|assumption].
        intros x [<-|Hx]; [assumption|apply Hall; assumption].
Qed.

Lemma default_index_lt names :
  names <> [] -> (default_index names < List.length names)%nat.
Proof.
  intros Hne. unfold default_index.
  destruct (scan_default_spec names 0 0)
    as [(before & m & after & Hn & Hm & Hb & Hs)|[Hall Hs]].
  - rewrite Hs, Hn, length_app. cbn. lia.
  - rewrite Hs. destruct names; [contradiction|cbn; lia].
Qed.

(** X13: the default index is the position of the first model whose name
    contains both [flash] and [1.5]; without such a model it is 0.  In both
    cases it is a valid index of a non-empty list. *)
Theorem default_index_first_flash names :
  ((exists before model_name after,
       names = before ++ model_name :: after /\
       is_flash_15 model_name = true /\
       (forall n, In n before -> is_flash_15 n = false) /\
       default_index names = List.length before) \/
   ((forall n, In n names -> is_flash_15 n = false) /\ default_index names = 0%nat)) /\
  (names <> [] -> (default_index names < List.length names)%nat).
Proof.
  unfold default_index.
  destruct (scan_default_spec names 0 0)
    as [(before & m & after & Hn & Hm & Hb & Hs)|[Hall Hs]].
  - split.
    + left. exists before, m, after. repeat split; assumption.
    + intros _. rewrite Hs, Hn, length_app. cbn. lia.
  - split.
    + right. split; assumption.
    + intros Hne. rewrite Hs. destruct names; [contradiction|cbn; lia].
Qed.

Lemma available_spec models n :
  In n (available models) <->
  exists m, In m models /\ supports_generate m = true /\ name m = n.
Proof.
  induction models as [|m models IH]; cbn [available].
  - split; [intros []|intros (m & [] & _)].
  - destruct (supports_generate m) eqn:Hm.
    + cbn [In]. rewrite IH. split.
      * intros [<-|(m' & Hin & Hs & Hn)].
        -- exists m. repeat split; [left; reflexivity|assumption].
        -- exists m'. repeat split; [right; assumption|assumption|assumption].
      * intros (m' & [<-|Hin] & Hs & Hn); [left; assumption|].
        right. exists m'. repeat split; assumption.
    + rewrite IH. split.
      * intros (m' & Hin & Hs & Hn). exists m'. repeat split; [right|..]; assumption.
      * intros (m' & [<-|Hin] & Hs & Hn); [congruence|].
        exists m'. repeat split; assumption.
Qed.

Lemma selectbox_in options index choice :
  (index < List.length options)%nat -> In (selectbox options index choice) options.
Proof.
  intros Hi. unfold selectbox.
  destruct choice as [c|]; [|apply nth_In; exact Hi].
  destruct (existsb (str_eqb c) options) eqn:Hc; [|apply nth_In; exact Hi].
  apply existsb_exists in Hc. destruct Hc as (x & Hx & Heq).
  unfold str_eqb in Heq. destruct (list_eq_dec N.eq_dec c x); [subst; assumption|discriminate].
Qed.

(** X14: the model selected in the sidebar is either empty (no key, a
    failed listing, or no usable model) or the name of a listed model that
    supports [generateContent]. *)
Theorem selected_model_supports_generate models choice api_key :
  fst (sidebar models choice api_key) = [] \/
  exists ms m,
    models = Return ms /\ In m ms /\ supports_generate m = true /\
    name m = fst (sidebar models choice api_key).
Proof.
  unfold sidebar. destruct (str_truthy api_key); [|left; reflexivity].
  destruct models as [ms|e]; [|left; reflexivity].
  destruct (available ms) as [|n ns] eqn:Hav; [left; reflexivity|].
  right. cbn [fst].
  assert (Hin : In (selectbox (n :: ns) (default_index (n :: ns)) choice) (n :: ns)).
  { apply selectbox_in. apply default_index_lt. discriminate. }
  rewrite <- Hav in Hin |- *. apply available_spec in Hin.
  destruct Hin as (m & Hm & Hs & Hn). exists ms, m. repeat split; assumption.
Qed.

Lemma cached_hit model_type handle c :
  cached model_type ((model_type, handle) :: c) = Some handle.
Proof.
  cbn [cached]. unfold str_eqb.
  destruct (list_eq_dec N.eq_dec model_type model_type); [reflexivity|contradiction].
Qed.

(** X15: once a precision choice has been loaded, loading it again runs no
    construction and gives the same handle; the store is left as it is. *)
Theorem second_load_is_cached construct c model_type handle c' files :
  load_sam_model construct c model_type = (Return handle, c', files) ->
  load_sam_model construct c' model_type = (Return handle, c', []).
Proof.
  unfold load_sam_model. destruct (cached model_type c) as [h|] eqn:Hc.
  - intros [= <- <- _]. rewrite Hc. reflexivity.
  - destruct (construct (weights_of model_type)) as [h|e]; [|discriminate].
    intros [= <- <- _]. rewrite cached_hit. reflexivity.
Qed.

Lemma second_load_is_cached_witness :
  load_sam_model (fun _ => Return 7%N) [(type_fast, 7%N)] type_fast
  = (Return 7%N, [(type_fast, 7%N)], []).
Proof.
  refine (second_load_is_cached (fun _ => Return 7%N) [] type_fast 7%N
            [(type_fast, 7%N)] [lit "mobile_sam.pt"] _).
  vm_compute; reflexivity.
Defined.

(** X16: when the model cannot be loaded, the run shows the loading error and
    stops: nothing of [main] is run, whatever was uploaded, clicked or drawn. *)
Theorem load_failure_stops_script L models construct c i e :
  cached (sam_type_in i) c = None ->
  construct (weights_of (sam_type_in i)) = Raise e ->
  exists side,
    script L models construct c i
    = (Return tt,
       map Side side ++ [LoadWeights (weights_of (sam_type_in i));
                         TopError (msg_load_error ++ exn_text L e); Stop],
       c).
Proof.
  intros Hc He. unfold script, load_sam_model.
  destruct (sidebar models (choice_in i) (api_key_in i)) as [selected side].
  rewrite Hc, He. exists side. rewrite <- app_assoc. reflexivity.
Qed.

Lemma load_failure_stops_script_witness :
  exists side,
    script (sample_libs [] [] JNull) (Return []) (fun _ => Raise (LibraryError 1)) []
      (sample_inputs [] (Some (sample_image 1400 1000)) true)
    = (Return tt,
       map Side side
       ++ [LoadWeights (weights_of (sam_type_in
                          (sample_inputs [] (Some (sample_image 1400 1000)) true)));
           TopError (msg_load_error
                     ++ exn_text (sample_libs [] [] JNull) (LibraryError 1)); Stop],
       []).
Proof.
  refine (load_failure_stops_script (sample_libs [] [] JNull) (Return [])
            (fun _ => Raise (LibraryError 1)) []
            (sample_inputs [] (Some (sample_image 1400 1000)) true) (LibraryError 1) _ _);
    vm_compute; reflexivity.
Defined.

Lemma auto_tab_unselected L img api_key log :
  auto_tab L img api_key [] true log
  = (Return tt, log ++ [StWrite msg_intro; StError msg_validation]).
Proof.
  unfold auto_tab, bind, emit. cbn [str_truthy negb]. rewrite orb_true_r.
  rewrite <- app_assoc. reflexivity.
Qed.

Lemma auto_tab_idle L img api_key selected log :
  auto_tab L img api_key selected false log = (Return tt, log ++ [StWrite msg_intro]).
Proof. reflexivity. Qed.

Lemma filter_network_main log :
  (forall ev, In ev log -> is_generate ev = false) ->
  filter is_network (map Main log) = [].
Proof.
  induction log as [|ev log IH]; intros H; [reflexivity|].
  cbn [map filter].
  assert (Hev : is_network (Main ev) = false).
  { specialize (H ev (or_introl eq_refl)). destruct ev; try reflexivity. discriminate H. }
  rewrite Hev. apply IH. intros ev' Hin. apply H. right. exact Hin.
Qed.

Lemma main_without_model L uploaded api_key clicked canvas :
  forall ev,
    In ev (snd (main L uploaded api_key [] clicked canvas [])) -> is_generate ev = false.
Proof.
  intros ev. unfold main. destruct uploaded as [img|]; [|intros []].
  unfold bind at 1.
  assert (Hauto : exists rest,
             auto_tab L img api_key [] clicked [] = (Return tt, StWrite msg_intro :: rest) /\
             (rest = [] \/ rest = [StError msg_validation])).
  { destruct clicked.
    - rewrite auto_tab_unselected. eexists. split; [reflexivity|right; reflexivity].
    - rewrite auto_tab_idle. eexists. split; [reflexivity|left; reflexivity]. }
  destruct Hauto as (rest & -> & Hrest).
  destruct (manual_tab_events L img canvas (StWrite msg_intro :: rest))
    as (o & rest' & -> & Hrest').
  cbn [snd]. intros Hin. apply in_app_or in Hin.
  destruct Hin as [Hin|Hin].
  - destruct Hin as [<-|Hin]; [reflexivity|].
    destruct Hrest as [-> | ->]; [destruct Hin|].
    destruct Hin as [<-|[]]. reflexivity.
  - destruct Hin as [<-|Hin]; [reflexivity|].
    destruct Hrest' as [->|[(b & ->)|(b & r & ->)]];
      repeat (destruct Hin as [<-|Hin]; [reflexivity|]); destruct Hin.
Qed.

(** X17: without an API key, a run of the whole script reaches the remote
    service neither to list the models nor to detect, whatever is uploaded,
    clicked or drawn. *)
Theorem no_key_no_network L models construct c i :
  api_key_in i = [] ->
  filter is_network (snd (fst (script L models construct c i))) = [].
Proof.
  intros Hkey. unfold script, sidebar. rewrite Hkey. cbn [str_truthy].
  destruct (load_sam_model construct c (sam_type_in i)) as [[loaded c'] files].
  assert (Hfiles : filter is_network (map LoadWeights files) = []).
  { induction files as [|f files IH]; [reflexivity|exact IH]. }
  destruct loaded as [handle|e].
  - destruct (main L (uploaded_in i) [] [] (clicked_in i) (canvas_in i) []) as [o log] eqn:Hm.
    cbn [fst snd map app]. rewrite filter_app, Hfiles. cbn [app filter].
    assert (Hs : is_network (if str_eqb (sam_type_in i) type_precise
                             then SidebarSuccess msg_precise_in_use
                             else SidebarInfo msg_fast_in_use) = false)
      by (destruct (str_eqb _ _); reflexivity).
    rewrite Hs. apply filter_network_main.
    intros ev Hin. apply (main_without_model L (uploaded_in i) [] (clicked_in i) (canvas_in i)).
    rewrite Hm. exact Hin.
  - cbn [fst snd map app]. rewrite filter_app, Hfiles. reflexivity.
Qed.

Lemma no_key_no_network_witness :
  filter is_network
    (snd (fst (script (sample_libs reply_floor reply_floor value_floor)
                 (Return []) (fun _ => Return 7%N) []
                 (sample_inputs [] (Some (sample_image 1400 1000)) true))))
  = [].
Proof.
  exact (no_key_no_network (sample_libs reply_floor reply_floor value_floor)
           (Return []) (fun _ => Return 7%N) []
           (sample_inputs [] (Some (sample_image 1400 1000)) true) eq_refl).
Defined.

(** X18: when the sidebar ends without a selected model (the listing failed
    or no listed model supports [generateContent]), a click on the run button
    is answered by the validation error, and no detection request is sent. *)
Theorem no_model_no_detection L models construct c i img handle c' files :
  fst (sidebar models (choice_in i) (api_key_in i)) = [] ->
  load_sam_model construct c (sam_type_in i) = (Return handle, c', files) ->
  uploaded_in i = Some img -> clicked_in i = true ->
  In (Main (StError msg_validation)) (snd (fst (script L models construct c i))) /\
  forall model_name p im,
    ~ In (Main (GenerateContent model_name p im)) (snd (fst (script L models construct c i))).
Proof.
  intros Hsel Hload Hup Hclick. unfold script.
  destruct (sidebar models (choice_in i) (api_key_in i)) as [selected side].
  cbn [fst] in Hsel. subst selected. rewrite Hload, Hup, Hclick.
  destruct (main L (Some img) (api_key_in i) [] true (canvas_in i) []) as [o log] eqn:Hm.
  cbn [fst snd]. split.
  - apply in_or_app. right. right. apply in_map.
    unfold main in Hm. unfold bind in Hm at 1. rewrite auto_tab_unselected in Hm.
    destruct (manual_tab_events L img (canvas_in i) ([] ++ [StWrite msg_intro; StError msg_validation]))
      as (o' & rest & Hman & _).
    rewrite Hman in Hm. injection Hm as _ <-. cbn. right. left. reflexivity.
  - intros model_name p im Hin. apply in_app_or in Hin. destruct Hin as [Hin|Hin].
    + apply in_app_or in Hin. destruct Hin as [Hin|Hin].
      * apply in_map_iff in Hin. destruct Hin as (x & Hx & _). discriminate Hx.
      * apply in_map_iff in Hin. destruct Hin as (x & Hx & _). discriminate Hx.
    + destruct Hin as [Hin|Hin]; [destruct (str_eqb _ _); discriminate Hin|].
      apply in_map_iff in Hin. destruct Hin as (ev & Hev & Hin). injection Hev as ->.
      pose proof (main_without_model L (Some img) (api_key_in i) true (canvas_in i)
                    (GenerateContent model_name p im)) as Hno.
      rewrite Hm in Hno. specialize (Hno Hin). discriminate Hno.
Qed.

Lemma no_model_no_detection_witness :
  In (Main (StError msg_validation))
     (snd (fst (script (sample_libs reply_floor reply_floor value_floor)
                  (Raise (LibraryError 401)) (fun _ => Return 7%N) []
                  (sample_inputs (lit "wrong key") (Some (sample_image 1400 1000)) true)))).
Proof.
  refine (proj1 (no_model_no_detection (sample_libs reply_floor reply_floor value_floor)
                   (Raise (LibraryError 401)) (fun _ => Return 7%N) []
                   (sample_inputs (lit "wrong key") (Some (sample_image 1400 1000)) true)
                   (sample_image 1400 1000) 7%N [(type_precise, 7%N)] [lit "sam_b.pt"]
                   _ _ _ _)); vm_compute; reflexivity.
Defined.

(** ** Exact conversions: images no wider than the canvas *)

Lemma digits2_unique x k :
  2 ^ (k - 1) <= Zpos x < 2 ^ k -> Zpos (digits2_pos x) = k.
Proof.
  intros [Hlo Hhi]. pose proof (digits2_bounds x) as [Dlo Dhi].
  set (d := Zpos (digits2_pos x)) in *.
  assert (0 < d) by (unfold d; lia).
  assert (Hk : 0 < k).
  { destruct (Z_lt_le_dec 0 k); [assumption|exfalso].
    rewrite (Z.pow_neg_r 2 (k - 1)) in Hlo by lia.
    assert (2 ^ k <= 1).
    { destruct (Z.eq_dec k 0) as [->|]; [cbn; lia|].
      rewrite Z.pow_neg_r by lia. lia. }
    lia. }
  assert (H1 : 2 ^ (k - 1) < 2 ^ d) by lia.
  assert (H2 : 2 ^ (d - 1) < 2 ^ k) by lia.
  apply Z.pow_lt_mono_r_iff in H1; [|lia|lia].
  apply Z.pow_lt_mono_r_iff in H2; [|lia|lia].
  lia.
Qed.

Lemma shl_align_exp m e :
  let E := fexp prec emax (Zpos (digits2_pos m) + e) in
  snd (shl_align m e E) = Z.min e E.
Proof.
  cbv zeta. unfold shl_align.
  destruct (fexp prec emax (Zpos (digits2_pos m) + e) - e) as [|p|p] eqn:Hd;
    cbn [snd]; lia.
Qed.

(** [float(n)] for [0 < n < 2^53] is the normal number of value [n]. *)
Lemma float_of_int_exact n :
  0 < n < 2 ^ 53 ->
  exists m e,
    float_of_int n = Return (S754_finite false m e) /\
    Zpos m = n * 2 ^ (- e) /\ -52 <= e <= 0 /\ Zpos (digits2_pos m) = 53.
Proof.
  intros [Hn0 Hn]. destruct n as [|w|w]; try lia.
  unfold float_of_int. cbn [binary_normalize]. unfold binary_round.
  pose proof (shl_align_spec w 0) as Hspec.
  pose proof (shl_align_exp w 0) as Hexp. cbv zeta in Hexp.
  destruct (shl_align w 0 _) as [mz ez]. cbn [snd] in Hexp.
  destruct Hspec as (H1 & H2 & H3 & H4).
  assert (Hd : Zpos (digits2_pos w) <= 53) by (apply (Zdigits2_le (Zpos w) 53); lia).
  assert (Hez : ez = Zpos (digits2_pos w) - 53).
  { rewrite Hexp. unfold fexp, emin, prec, emax. lia. }
  assert (HE : fexp prec emax (Zpos (digits2_pos mz) + ez) = ez).
  { rewrite H3. rewrite Hez. unfold fexp, emin, prec, emax. lia. }
  destruct (round_aux_exact false mz ez) as [Hr _]; [rewrite HE; lia|].
  rewrite Hr, HE, Z.sub_diag, rne_0.
  assert (Hdm : Zpos (digits2_pos mz) = 53) by lia.
  assert (Hlt : Zpos mz < two53).
  { pose proof (digits2_bounds mz) as [_ Hhi]. rewrite Hdm in Hhi. exact Hhi. }
  unfold pack. apply Z.ltb_lt in Hlt. rewrite Hlt.
  assert (Hle : (ez <=? emax - prec) = true) by (apply Z.leb_le; unfold emax, prec; lia).
  rewrite Hle. exists mz, ez. repeat split; try lia.
  rewrite H2. f_equal.
Qed.

(** Multiplying a normal number by [1.0] leaves it unchanged. *)
Lemma fmul_one_normal m e :
  Zpos (digits2_pos m) = 53 -> -1074 <= e <= 971 ->
  fmul (S754_finite false m e) one = S754_finite false m e.
Proof.
  intros Hd He. unfold fmul, one. cbn [SFmul xorb].
  assert (Hmul : Zpos (m * 4503599627370496) = Zpos m * 2 ^ 52) by reflexivity.
  assert (Hdig : Zpos (digits2_pos (m * 4503599627370496)) = 105).
  { apply digits2_unique. rewrite Hmul.
    pose proof (digits2_bounds m) as [Hlo Hhi]. rewrite Hd in Hlo, Hhi.
    change (2 ^ (105 - 1)) with (2 ^ (53 - 1) * 2 ^ 52).
    change (2 ^ 105) with (2 ^ 53 * 2 ^ 52). split.
    - apply Z.mul_le_mono_nonneg_r; [lia|exact Hlo].
    - apply Z.mul_lt_mono_pos_r; [lia|exact Hhi]. }
  assert (HE : fexp prec emax (Zpos (digits2_pos (m * 4503599627370496)) + (e + -52)) = e).
  { rewrite Hdig. unfold fexp, emin, prec, emax. lia. }
  destruct (round_aux_exact false (m * 4503599627370496) (e + -52)) as [Hr _];
    [rewrite HE; lia|].
  rewrite Hr, HE, Hmul.
  replace (e - (e + -52)) with (0 + 52) by lia.
  rewrite rne_scale, rne_0 by lia.
  assert (Hlt : Zpos m < two53).
  { pose proof (digits2_bounds m) as [_ Hhi]. rewrite Hd in Hhi. exact Hhi. }
  unfold pack. apply Z.ltb_lt in Hlt. rewrite Hlt.
  assert (Hle : (e <=? emax - prec) = true) by (apply Z.leb_le; unfold emax, prec; lia).
  rewrite Hle. reflexivity.
Qed.

(** [n * 1.0] for an [int] [0 <= n < 2^53] is [float(n)], and truncating it
    gives [n] back. *)
Lemma int_times_one n :
  0 <= n < 2 ^ 53 ->
  mul_float (JInt n) one = Return (to_float n) /\
  float_of_int n = Return (to_float n) /\
  int_of_float (to_float n) = Return n.
Proof.
  intros [Hn0 Hn]. destruct (Z.eq_dec n 0) as [->|Hnz].
  - repeat split; reflexivity.
  - destruct (float_of_int_exact n) as (m & e & Hf & Hm & He & Hd); [lia|].
    unfold to_float. cbn [mul_float]. rewrite Hf. cbn [obind].
    rewrite fmul_one_normal by lia. repeat split.
    cbn [int_of_float cond_Zopp]. f_equal.
    rewrite Z.shiftl_div_pow2 by lia. rewrite Hm.
    apply Z.div_mul. apply Z.pow_nonzero; lia.
Qed.

(** [n / n] is [1.0]. *)
Lemma int_true_div_self n : 0 < n -> int_true_div n n = Return one.
Proof.
  intros Hn. destruct n as [|p|p]; try lia.
  unfold int_true_div, SFdiv_core_binary. cbn [Z.abs Z.ltb Z.compare xorb].
  rewrite (Z.sub_diag (Zdigits2 (Zpos p) + 0)).
  change (Z.min (fexp prec emax 0) (0 - 0)) with (-53).
  change (0 - 0 - -53) with 53.
  cbv iota.
  assert (Hdiv : Z.div_eucl (Z.shiftl (Zpos p) 53) (Zpos p) = (two53, 0)).
  { rewrite Z.shiftl_mul_pow2 by lia.
    assert (Hpair : forall a b, Z.div_eucl a b = (a / b, a mod b)).
    { intros a b. unfold Z.div, Z.modulo. destruct (Z.div_eucl a b); reflexivity. }
    rewrite Hpair. rewrite (Z.mul_comm (Zpos p)), Z.div_mul, Z.mod_mul by lia.
    reflexivity. }
  rewrite Hdiv.
  assert (Hloc : new_location (Zpos p) 0 = loc_Exact).
  { unfold new_location. destruct (Z.even (Zpos p)); reflexivity. }
  rewrite Hloc. reflexivity.
Qed.

Lemma display_size_small width height :
  0 <= width <= canvas_width -> 0 <= height < 2 ^ 53 ->
  display_size width height = Return (width, height).
Proof.
  intros Hw Hh. unfold display_size, canvas_width in *.
  assert (Hgt : (width >? 700) = false) by (rewrite Z.gtb_ltb; apply Z.ltb_ge; lia).
  rewrite Hgt. cbn [obind].
  destruct (int_times_one width ltac:(lia)) as (Hm & _ & Hi).
  destruct (int_times_one height Hh) as (Hm' & _ & Hi').
  rewrite Hm. cbn [obind]. rewrite Hi. cbn [obind].
  rewrite Hm'. cbn [obind]. rewrite Hi'. reflexivity.
Qed.

(** X19: an image no wider than 700 pixels is displayed at its own size, and
    the two factors that map the canvas back to the image are exactly 1.0. *)
Theorem small_image_full_size width height :
  0 < width <= 700 -> 0 < height < 2 ^ 53 ->
  display_size width height = Return (width, height) /\
  int_true_div width width = Return one /\
  int_true_div height height = Return one.
Proof.
  intros Hw Hh. split; [|split].
  - apply display_size_small; unfold canvas_width; lia.
  - apply int_true_div_self. lia.
  - apply int_true_div_self. lia.
Qed.

Lemma small_image_full_size_witness :
  display_size 640 480 = Return (640, 480) /\
  int_true_div 640 640 = Return one /\ int_true_div 480 480 = Return one.
Proof. apply small_image_full_size; lia. Defined.

(** X20: on an image no wider than 700 pixels, a rectangle with integer
    coordinates is sent to the segmentation model unchanged: the box is
    (left, top, left + width, top + height), each as the float of that exact
    value. *)
Theorem small_image_box_unchanged L img json_data kv left top w h log :
  0 < fst (size img) <= 700 -> 0 < snd (size img) < 2 ^ 53 ->
  drawn_object json_data = Return (Some (JObj kv)) ->
  lookup (lit "left") kv = Some (JInt left) -> lookup (lit "top") kv = Some (JInt top) ->
  lookup (lit "width") kv = Some (JInt w) -> lookup (lit "height") kv = Some (JInt h) ->
  0 <= left -> 0 <= top -> 0 <= w -> 0 <= h ->
  left + w < 2 ^ 53 -> top + h < 2 ^ 53 ->
  sam_requests (snd (manual_tab L img json_data log))
  = sam_requests log
    ++ [[ [to_float left; to_float top; to_float (left + w); to_float (top + h)] ]] /\
  int_of_float (to_float left) = Return left /\
  int_of_float (to_float top) = Return top /\
  int_of_float (to_float (left + w)) = Return (left + w) /\
  int_of_float (to_float (top + h)) = Return (top + h).
Proof.
  intros HW HH Hobj Hl Ht Hw Hh Hl0 Ht0 Hw0 Hh0 Hr Hb.
  destruct (int_times_one left ltac:(lia)) as (Ml & _ & Il).
  destruct (int_times_one top ltac:(lia)) as (Mt & _ & It).
  destruct (int_times_one (left + w) ltac:(lia)) as (Mr & _ & Ir).
  destruct (int_times_one (top + h) ltac:(lia)) as (Mb & _ & Ib).
  split; [|repeat split; assumption].
  rewrite manual_tab_unfold. cbv zeta.
  rewrite display_size_small by (unfold canvas_width; lia).
  rewrite Hobj. unfold canvas_box.
  rewrite !int_true_div_self by lia. cbn [obind getitem].
  rewrite Hl, Ht, Hw, Hh. cbn [obind py_add]. rewrite Ml, Mt. cbn [obind].
  rewrite Mr, Mb. cbn [obind].
  destruct (sam_model L _) as [[|r rs]|e]; cbn [snd];
    rewrite ?sam_requests_app; cbn; rewrite ?app_nil_r; reflexivity.
Qed.

Lemma small_image_box_unchanged_witness :
  sam_requests (snd (manual_tab (sample_libs [] [] JNull) (sample_image 640 480)
                       (canvas_state [rect 100 50 200 100]) []))
  = sam_requests [] ++ [[ [to_float 100; to_float 50; to_float (100 + 200);
                           to_float (50 + 100)] ]].
Proof.
  refine (proj1 (small_image_box_unchanged (sample_libs [] [] JNull) (sample_image 640 480)
            (canvas_state [rect 100 50 200 100])
            [(lit "type", JStr (lit "rect")); (lit "left", JInt 100); (lit "top", JInt 50);
             (lit "width", JInt 200); (lit "height", JInt 100)]
            100 50 200 100 [] _ _ _ _ _ _ _ _ _ _ _ _ _));
    try (cbn; lia); vm_compute; reflexivity.
Defined.

(** X21: whatever the world answers, one call of [process_gemini_auto]
    configures the client with the given key, sends exactly one request, for
    the selected model and the uploaded image, and then runs the segmentation
    model at most once, on that same image and never with an empty list of
    boxes. *)
Theorem auto_path_one_request L img api_key model_name log :
  exists outcome_pair rest,
    process_gemini_auto L img api_key model_name log
    = (Return outcome_pair,
       log ++ [Configure api_key; GenerateContent model_name (prompt L) img] ++ rest) /\
    (rest = [] \/ exists b bs, rest = [SamPredict img (b :: bs)]).
Proof.
  destruct (process_gemini_auto_shape L img api_key model_name log)
    as (result & info & rest & Hrun & Hrest & _).
  exists (result, info), rest. split.
  - rewrite Hrun. unfold asked. rewrite <- !app_assoc. reflexivity.
  - destruct Hrest as [->|(bboxes & -> & Hne)]; [left; reflexivity|].
    right. destruct bboxes as [|b bs]; [contradiction|]. exists b, bs. reflexivity.
Qed.
